(** * escposimg: the image printing script [print_image.py]

    A shallow embedding of [src/reference/print_image.py].  The script
    loads an image with PIL, scales it to the printer's width, opens a
    python-escpos [Network] printer and sends the image, a line feed and
    a cut.  PIL, python-escpos, the file system and the network are
    collaborators of the script: they are gathered in a record [World]
    whose fields say, call by call, what the collaborator answers or
    which Python exception it raises.  The script itself is a term of a
    small state-and-exception monad over the observable state (standard
    output, socket, bytes on the wire). *)

From Stdlib Require Import ZArith List String Ascii Bool Lia.
From Stdlib Require Import SpecFloat DecimalString.
Import ListNotations.

Local Open Scope string_scope.
Local Open Scope list_scope.
Local Open Scope Z_scope.

(** ** Python exceptions

    Only instances of [Exception] are represented: these are what the
    collaborators raise and what [except Exception] catches.  The class
    matters to the script in one place, [except ConnectionError]. *)

Module Py.

Inductive exn : Type :=
| ConnectionError (msg : string)
| ZeroDivisionError (msg : string)
| OverflowError (msg : string)
| ValueError (msg : string)
| OtherException (cls msg : string).

(** [isinstance(e, ConnectionError)] *)
Definition is_ConnectionError (e : exn) : bool :=
  match e with
  | ConnectionError _ => true
  | _ => false
  end.

(** [str(e)], as interpolated by [f"{e}"] *)
Definition str (e : exn) : string :=
  match e with
  | ConnectionError m | ZeroDivisionError m | OverflowError m
  | ValueError m | OtherException _ m => m
  end.

Inductive result (A : Type) : Type :=
| Ok (a : A)
| Raise (e : exn).
Arguments Ok {A} a.
Arguments Raise {A} e.

(** [str(n)] for an [int], as interpolated by [f"{n}"] *)
Definition str_int (n : Z) : string := NilZero.string_of_int (Z.to_int n).

End Py.
Import Py.

(** ** Python floats: IEEE 754 binary64

    [max_width / img.width] is Python's true division of two [int]s and
    [img.height * ratio] multiplies an [int] by a [float]; [int(...)]
    truncates toward zero.  The operations are those of the Standard
    Library's executable specification of IEEE 754 arithmetic
    ([SpecFloat]), at precision 53 and maximal exponent 1024. *)

Module Float64.

Definition prec : Z := 53.
Definition emax : Z := 1024.

(** An integer as an unrounded dyadic number [n * 2^0]. *)
Definition exact (n : Z) : spec_float :=
  match n with
  | Z0 => S754_zero false
  | Zpos p => S754_finite false p 0
  | Zneg p => S754_finite true p 0
  end.

(** [float(n)]: the nearest binary64 (ties to even); an [int] beyond
    the range of binary64 raises [OverflowError]. *)
Definition of_int (n : Z) : result spec_float :=
  match binary_normalize prec emax n 0 false with
  | S754_infinity _ => Raise (OverflowError "int too large to convert to float")
  | x => Ok x
  end.

(** [a / b] on two [int]s: the exact quotient rounded once to the
    nearest binary64 ([SFdiv] divides the mantissas it is given, of any
    length, and rounds the quotient); a zero divisor and a quotient
    beyond the range of binary64 raise. *)
Definition truediv (a b : Z) : result spec_float :=
  if b =? 0 then Raise (ZeroDivisionError "division by zero")
  else
    match SFdiv prec emax (exact a) (exact b) with
    | S754_infinity _ =>
        Raise (OverflowError "integer division result too large for a float")
    | q => Ok q
    end.

(** [n * x] for an [int] [n] and a [float] [x]. *)
Definition mul_int (n : Z) (x : spec_float) : result spec_float :=
  match of_int n with
  | Ok y => Ok (SFmul prec emax y x)
  | Raise e => Raise e
  end.

(** [int(x)]: truncation toward zero. *)
Definition to_int (x : spec_float) : result Z :=
  match x with
  | S754_zero _ => Ok 0
  | S754_finite s m e =>
      Ok (cond_Zopp s
            (match e with
             | Z0 => Zpos m
             | Zpos _ => Z.shiftl (Zpos m) e
             | Zneg k => Z.shiftr (Zpos m) (Zpos k)
             end))
  | S754_infinity _ =>
      Raise (OverflowError "cannot convert float infinity to integer")
  | S754_nan => Raise (ValueError "cannot convert float NaN to integer")
  end.

End Float64.

(** ** Images

    What the script reads of a PIL image: its mode and its size.  The
    pixel buffer is carried along (row-major, one list of channel
    samples per pixel); the script never looks into it. *)

Definition pixel : Type := list Z.

Record Image : Type := mkImage {
  mode : string;
  width : Z;
  height : Z;
  pixels : list pixel
}.

(** ** The collaborators

    One field per external call of the script.  A call either answers
    or raises. *)

Record World : Type := mkWorld {
  (** [Path(p).exists()] *)
  path_exists : string -> bool;
  (** [Image.open(p)] *)
  image_open : string -> result Image;
  (** [img.convert(mode)] *)
  image_convert : Image -> string -> result Image;
  (** [img.resize((w, h), Image.Resampling.LANCZOS)] *)
  image_resize : Image -> Z * Z -> result Image;
  (** [Network(ip, port=port, profile=profile)] and
      [Network(ip, port=port)]; [None] when the connection is up *)
  network_new : string -> Z -> option string -> option exn;
  (** [printer.image(img)] *)
  device_image : Image -> option exn;
  (** [printer.ln(n)] *)
  device_ln : Z -> option exn;
  (** [printer.cut()] *)
  device_cut : option exn;
  (** [printer.close()] *)
  device_close : option exn
}.

(** ** Observable state *)

Inductive socket_state : Type :=
| NoSocket      (* nothing was opened *)
| SocketOpen
| SocketClosed.

(** What was sent to the printer, call by call. *)
Inductive write : Type :=
| WImage (img : Image)   (* the raster command of [printer.image] *)
| WLineFeed (n : Z)      (* [printer.ln(n)] *)
| WCut.                  (* [printer.cut()] *)

Record state : Type := mkState {
  stdout : list string;            (* lines printed, oldest first *)
  socket : socket_state;
  connects : list (option string); (* connection attempts, by profile *)
  wire : list write                (* completed writes, oldest first *)
}.

Definition initial : state :=
  {| stdout := []; socket := NoSocket; connects := []; wire := [] |}.

(** ** The monad of the script *)

Definition M (A : Type) : Type := state -> result A * state.

Definition ret {A} (a : A) : M A := fun s => (Ok a, s).

Definition bind {A B} (c : M A) (k : A -> M B) : M B :=
  fun s =>
    match c s with
    | (Ok a, s') => k a s'
    | (Raise e, s') => (Raise e, s')
    end.

(** [try: c  except Exception as e: h e] *)
Definition try_except {A} (c : M A) (h : exn -> M A) : M A :=
  fun s =>
    match c s with
    | (Ok a, s') => (Ok a, s')
    | (Raise e, s') => h e s'
    end.

Definition lift {A} (r : result A) : M A := fun s => (r, s).

Declare Scope py_scope.
Delimit Scope py_scope with py.
Notation "x <- c ;; k" := (bind c (fun x => k))
  (at level 61, c at next level, right associativity) : py_scope.
Notation "c ;; k" := (bind c (fun _ => k))
  (at level 61, right associativity) : py_scope.
Local Open Scope py_scope.

(** The four ways the script changes the state. *)
Definition log (line : string) (s : state) : state :=
  {| stdout := stdout s ++ [line]; socket := socket s;
     connects := connects s; wire := wire s |}.

Definition attempt (profile : option string) (s : state) : state :=
  {| stdout := stdout s; socket := socket s;
     connects := connects s ++ [profile]; wire := wire s |}.

Definition set_socket (k : socket_state) (s : state) : state :=
  {| stdout := stdout s; socket := k;
     connects := connects s; wire := wire s |}.

Definition wrote (w : write) (s : state) : state :=
  {| stdout := stdout s; socket := socket s;
     connects := connects s; wire := wire s ++ [w] |}.

(** [print(line)] *)
Definition print (line : string) : M unit :=
  fun s => (Ok tt, log line s).

(** A call that opens the connection. *)
Definition connect (W : World) (ip : string) (port : Z)
    (profile : option string) : M unit :=
  fun s =>
    match network_new W ip port profile with
    | None => (Ok tt, set_socket SocketOpen (attempt profile s))
    | Some e => (Raise e, attempt profile s)
    end.

(** A call that writes to the printer: the write is recorded when the
    call returns; a call that raises leaves the job incomplete. *)
Definition send (outcome : option exn) (w : write) : M unit :=
  fun s =>
    match outcome with
    | None => (Ok tt, wrote w s)
    | Some e => (Raise e, s)
    end.

(** [printer.close()] *)
Definition close (W : World) : M unit :=
  fun s =>
    match device_close W with
    | None => (Ok tt, set_socket SocketClosed s)
    | Some e => (Raise e, s)
    end.

(** ** The script *)

(** Lines 42-43: [ratio = max_width / img.width] and
    [new_height = int(img.height * ratio)]. *)
Definition new_height (h max_width w : Z) : result Z :=
  match Float64.truediv max_width w with
  | Raise e => Raise e
  | Ok ratio =>
      match Float64.mul_int h ratio with
      | Raise e => Raise e
      | Ok x => Float64.to_int x
      end
  end.

(** Lines 35-45, the normalizer: conversion to RGB, then scaling to the
    full printer width. *)
Definition normalize (W : World) (img : Image) (max_width : Z) : M Image :=
  img <- (if negb (mode img =? "RGB")%string
          then lift (image_convert W img "RGB")
          else ret img) ;;
  print ("Original image size: " ++ str_int (width img) ++ "x"
         ++ str_int (height img)) ;;
  if negb (width img =? max_width) then
    h <- lift (new_height (height img) max_width (width img)) ;;
    img' <- lift (image_resize W img (max_width, h)) ;;
    print ("Scaled image to full width: " ++ str_int max_width ++ "x"
           ++ str_int h) ;;
    ret img'
  else ret img.

(** Lines 25-65, the body of the [try] block. *)
Definition session (W : World) (image_path printer_ip : string)
    (printer_port : Z) (profile : string) (max_width : Z) : M bool :=
  if negb (path_exists W image_path) then
    print ("Error: Image file '" ++ image_path ++ "' not found") ;;
    ret false
  else
    print ("Opening image: " ++ image_path) ;;
    img <- lift (image_open W image_path) ;;
    img <- normalize W img max_width ;;
    print ("Connecting to printer at " ++ printer_ip ++ ":"
           ++ str_int printer_port ++ " (Profile: " ++ profile ++ ")") ;;
    try_except
      (connect W printer_ip printer_port (Some profile))
      (fun profile_error =>
         print ("Warning: Profile '" ++ profile
                ++ "' not found, using default profile") ;;
         connect W printer_ip printer_port None) ;;
    print "Printing image..." ;;
    send (device_image W img) (WImage img) ;;
    send (device_ln W 1) (WLineFeed 1) ;;
    send (device_cut W) WCut ;;
    close W ;;
    print "Image printed successfully!" ;;
    ret true.

(** Lines 67-73, the handlers: [except ConnectionError] first, then
    [except Exception as e]. *)
Definition handlers (printer_ip : string) (printer_port : Z) (e : exn)
    : M bool :=
  if is_ConnectionError e then
    print ("Error: Could not connect to printer at " ++ printer_ip ++ ":"
           ++ str_int printer_port) ;;
    print "Make sure the printer is online and the IP address is correct" ;;
    ret false
  else
    print ("Error printing image: " ++ Py.str e) ;;
    ret false.

Definition print_image_to_network_printer (W : World)
    (image_path printer_ip : string) (printer_port : Z) (profile : string)
    (max_width : Z) : M bool :=
  try_except
    (session W image_path printer_ip printer_port profile max_width)
    (handlers printer_ip printer_port).

(** The parsed command line. *)
Record Args : Type := mkArgs {
  arg_printer_ip : string;
  arg_image_path : string;
  arg_port : Z;
  arg_profile : string;
  arg_width : Z
}.

(** The defaults of [--port], [--profile] and [--width]. *)
Definition default_args (printer_ip image_path : string) : Args :=
  {| arg_printer_ip := printer_ip; arg_image_path := image_path;
     arg_port := 9100; arg_profile := "TM-T20II"; arg_width := 576 |}.

(** Lines 100-118 of [main], after [parse_args]; the value is the status
    handed to [sys.exit]. *)
Definition main (W : World) (args : Args) : M Z :=
  print "ESC/POS Image Printer" ;;
  print "====================" ;;
  print ("Printer IP: " ++ arg_printer_ip args) ;;
  print ("Printer Port: " ++ str_int (arg_port args)) ;;
  print ("Printer Profile: " ++ arg_profile args) ;;
  print ("Image: " ++ arg_image_path args) ;;
  print "" ;;
  success <- print_image_to_network_printer W (arg_image_path args)
               (arg_printer_ip args) (arg_port args) (arg_profile args)
               (arg_width args) ;;
  ret (if success : bool then 0 else 1).

(** ** A concrete world

    A small instance of the collaborators, used to run the script on
    concrete inputs: every file of [files] exists and decodes, the
    resampler answers with an image of the requested size (and refuses
    an empty one, as Pillow does), the printer is reachable when
    [online], knows the profiles of [profiles], and the write of the
    image fails when [jam]. *)

Module Sample.

Definition convert (img : Image) (m : string) : result Image :=
  Ok {| mode := m; width := width img; height := height img;
        pixels := pixels img |}.

Definition resize (img : Image) (size : Z * Z) : result Image :=
  let (w, h) := size in
  if (w <? 1) || (h <? 1)
  then Raise (ValueError "height and width must be > 0")
  else Ok {| mode := mode img; width := w; height := h;
             pixels := repeat (hd [] (pixels img)) (Z.to_nat (w * h)) |}.

Fixpoint lookup (p : string) (files : list (string * Image))
    : option Image :=
  match files with
  | [] => None
  | (q, img) :: rest => if (p =? q)%string then Some img else lookup p rest
  end.

Definition world (files : list (string * Image)) (online : bool)
    (profiles : list string) (jam : bool) : World :=
  {| path_exists := fun p =>
       match lookup p files with Some _ => true | None => false end;
     image_open := fun p =>
       match lookup p files with
       | Some img => Ok img
       | None => Raise (OtherException "FileNotFoundError"
                          "No such file or directory")
       end;
     image_convert := convert;
     image_resize := resize;
     network_new := fun _ _ profile =>
       if negb online then Some (ConnectionError "Connection refused")
       else match profile with
            | Some name =>
                if existsb (String.eqb name) profiles then None
                else Some (OtherException "KeyError" name)
            | None => None
            end;
     device_image := fun _ =>
       if jam then Some (OtherException "OSError" "Broken pipe") else None;
     device_ln := fun _ => None;
     device_cut := None;
     device_close := None |}.

(** A uniformly white RGB image. *)
Definition white (w h : Z) : Image :=
  {| mode := "RGB"; width := w; height := h;
     pixels := repeat [255; 255; 255] (Z.to_nat (w * h)) |}.

End Sample.

(** The files of the concrete runs: [logo.png] is a 3x2 image. *)
Definition sample_files : list (string * Image) :=
  [("logo.png", Sample.white 3 2)].

(** More files for the concrete runs: an image of width zero, and one
    a hundred times wider than high. *)
Definition more_files : list (string * Image) :=
  [("logo.png", Sample.white 3 2); ("empty.png", Sample.white 0 5);
   ("wide.png", Sample.white 100 1)].

(** ** The contract of the imaging library

    What the script relies on: [convert] answers with an image of the
    requested mode and of the same size, [resize] with an image of the
    requested size and of the same mode. *)

Record pil_contract (W : World) : Prop := {
  convert_spec : forall img m out,
    image_convert W img m = Ok out ->
    mode out = m /\ width out = width img /\ height out = height img;
  resize_spec : forall img w h out,
    image_resize W img (w, h) = Ok out ->
    width out = w /\ height out = h /\ mode out = mode img
}.

(** The bitmap [normalize] produces; the lines it prints are left out. *)
Definition normalized (W : World) (img : Image) (max_width : Z)
    : result Image :=
  fst (normalize W img max_width initial).

(** Lines 36-37 alone: the image that reaches the scaling step. *)
Definition as_rgb (W : World) (img : Image) : result Image :=
  if negb (mode img =? "RGB")%string then image_convert W img "RGB"
  else Ok img.



(** ** What the script reports *)

(** [line] is a failure report of the script. *)
Definition is_error_line (line : string) : bool := String.prefix "Error" line.

(** The script printed a failure report between [s] and [s']. *)
Definition reports_failure (s s' : state) : Prop :=
  exists lines, stdout s' = stdout s ++ lines /\
                existsb is_error_line lines = true.

(** ** The raster encoder

    [printer.image(img)] is python-escpos code; the sources of the
    script do not contain it.  The definitions of this module follow
    section 4.2 of the specification instead. *)

Module RasterSpec.

Section Encoder.

(** The command header that selects raster bit-image mode, and the
    thresholding rule; the specification fixes neither. *)
Variable header : list Z.
Variable printed : pixel -> bool.

Inductive encoding_error : Type := EncodingError.

(** Modelled from the spec: the packed-row-byte-width of the missing
    encoder, [ceil(w / 8)]. *)
Definition packed_row_width (w : Z) : Z := (w + 7) / 8.

(** Modelled from the spec: the pixel buffer of the missing encoder,
    read row by row. *)
Definition pixel_at (bm : Image) (x y : Z) : pixel :=
  nth (Z.to_nat (y * width bm + x)) (pixels bm) [].

(** Modelled from the spec: the monochrome bit of column [x] in row [y]
    of the missing encoder; columns past the width are padding, not
    printed. *)
Definition bit_at (bm : Image) (x y : Z) : bool :=
  if x <? width bm then printed (pixel_at bm x y) else false.

(** Modelled from the spec: eight pixels to a byte in the missing
    encoder, most significant bit first, a printed pixel a set bit. *)
Definition byte_of_bits (bits : list bool) : Z :=
  fold_left (fun acc (b : bool) => 2 * acc + (if b then 1 else 0)) bits 0.

Definition packed_byte (bm : Image) (y : Z) (xb : nat) : Z :=
  byte_of_bits
    (map (fun i => bit_at bm (8 * Z.of_nat xb + Z.of_nat i) y) (seq 0 8)).

Definition packed_row (bm : Image) (y : nat) : list Z :=
  map (packed_byte bm (Z.of_nat y))
    (seq 0 (Z.to_nat (packed_row_width (width bm)))).

(** Modelled from the spec: the packed rows of the missing encoder,
    top row first. *)
Definition raster (bm : Image) : list Z :=
  flat_map (packed_row bm) (seq 0 (Z.to_nat (height bm))).

(** Low byte, then high byte. *)
Definition le16 (n : Z) : list Z := [n mod 256; n / 256].

(** Modelled from the spec: [encode] of the missing encoder.  It fails
    on a zero width or height and when a count does not fit in 16
    bits; otherwise it emits the header, the packed row width, the row
    count and the rows. *)
Definition encode (bm : Image) : encoding_error + list Z :=
  if (width bm =? 0) || (height bm =? 0) then inl EncodingError
  else if (65535 <? packed_row_width (width bm)) || (65535 <? height bm)
  then inl EncodingError
  else inr (header ++ le16 (packed_row_width (width bm))
              ++ le16 (height bm) ++ raster bm).

End Encoder.

(** A header of four bytes ([GS v 0 m]) and a threshold at mid-grey on
    the first channel, for concrete runs. *)
Definition gs_v_0 : list Z := [29; 118; 48; 0].
Definition dark (p : pixel) : bool := hd 255 p <? 128.

(** A 10x2 bitmap, white but for the first pixel of the first row and
    the second pixel of the second. *)
Definition checker : Image :=
  {| mode := "RGB"; width := 10; height := 2;
     pixels := map (fun i => if (i =? 0) || (i =? 11)
                             then [0; 0; 0] else [255; 255; 255])
                 (map Z.of_nat (seq 0 20)) |}.

End RasterSpec.

(** ** The runs of the script, case by case

    The lines the script prints, and the shape of a run from each point
    on: how the connection comes up, and how far the job gets. *)

Definition msg_not_found (image_path : string) : string :=
  "Error: Image file '" ++ image_path ++ "' not found".

Definition msg_opening (image_path : string) : string :=
  "Opening image: " ++ image_path.

Definition msg_connecting (printer_ip : string) (printer_port : Z)
    (profile : string) : string :=
  "Connecting to printer at " ++ printer_ip ++ ":" ++ str_int printer_port
  ++ " (Profile: " ++ profile ++ ")".

Definition msg_warning (profile : string) : string :=
  "Warning: Profile '" ++ profile ++ "' not found, using default profile".

Definition msg_success : string := "Image printed successfully!".

(** What the handlers of lines 67-73 print for [e]. *)
Definition report_lines (printer_ip : string) (printer_port : Z) (e : exn)
    : list string :=
  if is_ConnectionError e then
    [ ("Error: Could not connect to printer at " ++ printer_ip ++ ":"
       ++ str_int printer_port)%string;
      "Make sure the printer is online and the IP address is correct" ]
  else [ ("Error printing image: " ++ Py.str e)%string ].

(** The state the handlers leave. *)
Definition reported (printer_ip : string) (printer_port : Z) (e : exn)
    (s : state) : state :=
  snd (handlers printer_ip printer_port e s).

(** The seven lines [main] prints first. *)
Definition banner (args : Args) : list string :=
  [ "ESC/POS Image Printer"; "====================";
    ("Printer IP: " ++ arg_printer_ip args)%string;
    ("Printer Port: " ++ str_int (arg_port args))%string;
    ("Printer Profile: " ++ arg_profile args)%string;
    ("Image: " ++ arg_image_path args)%string; "" ].

(** The image file is there, decodes, and normalizes to [img]. *)
Definition reaches_printer (W : World) (image_path : string) (max_width : Z)
    (img : Image) : Prop :=
  path_exists W image_path = true /\
  exists img0, image_open W image_path = Ok img0 /\
               normalized W img0 max_width = Ok img.

(** One of the two calls of [Network] answers. *)
Definition connection_up (W : World) (printer_ip : string) (printer_port : Z)
    (profile : string) : Prop :=
  network_new W printer_ip printer_port (Some profile) = None \/
  network_new W printer_ip printer_port None = None.

(** From [s2], the connection comes up and leaves [sc]: at once, or
    after the warning and a second call without a profile. *)
Definition connected_to (W : World) (printer_ip : string) (printer_port : Z)
    (profile : string) (s2 sc : state) : Prop :=
  (network_new W printer_ip printer_port (Some profile) = None /\
   sc = set_socket SocketOpen (attempt (Some profile) s2)) \/
  (exists e,
     network_new W printer_ip printer_port (Some profile) = Some e /\
     network_new W printer_ip printer_port None = None /\
     sc = set_socket SocketOpen
            (attempt None (log (msg_warning profile)
                             (attempt (Some profile) s2)))).

(** From [s3], with the connection up, the job stops at the first call
    that raises, or gets to its end. *)
Definition delivered (W : World) (printer_ip : string) (printer_port : Z)
    (img : Image) (s3 : state) (run : result bool * state) : Prop :=
  (exists e, device_image W img = Some e /\
     run = (Ok false, reported printer_ip printer_port e s3)) \/
  (exists e, device_image W img = None /\ device_ln W 1 = Some e /\
     run = (Ok false,
            reported printer_ip printer_port e (wrote (WImage img) s3))) \/
  (exists e, device_image W img = None /\ device_ln W 1 = None /\
     device_cut W = Some e /\
     run = (Ok false,
            reported printer_ip printer_port e
              (wrote (WLineFeed 1) (wrote (WImage img) s3)))) \/
  (exists e, device_image W img = None /\ device_ln W 1 = None /\
     device_cut W = None /\ device_close W = Some e /\
     run = (Ok false,
            reported printer_ip printer_port e
              (wrote WCut (wrote (WLineFeed 1) (wrote (WImage img) s3))))) \/
  (device_image W img = None /\ device_ln W 1 = None /\
   device_cut W = None /\ device_close W = None /\
   run = (Ok true,
          log msg_success
            (set_socket SocketClosed
               (wrote WCut (wrote (WLineFeed 1) (wrote (WImage img) s3)))))).

(** ** Rounding, as the float operations keep track of it

    [located mrs N T]: the record [mrs] (a mantissa, a round bit and a
    sticky bit) stands for the number [N / T]: the mantissa is its
    integer part, and the two bits tell where the fraction lies with
    respect to one half. *)
Definition located (mrs : shr_record) (N T : Z) : Prop :=
  0 < T /\ 0 <= shr_m mrs /\
  shr_m mrs * T <= N < (shr_m mrs + 1) * T /\
  match shr_r mrs, shr_s mrs with
  | false, false => N = shr_m mrs * T
  | false, true => shr_m mrs * T < N /\ 2 * (N - shr_m mrs * T) < T
  | true, false => 2 * (N - shr_m mrs * T) = T
  | true, true => 2 * (N - shr_m mrs * T) > T
  end.

(** * Facts *)

(** ** Binary64 arithmetic on the sizes of an image

    Everything here is about [Float64] at the sizes the script meets:
    positive integers, with [height * max_width] below [2^51]. *)

Module Rounding.

Import Float64.

Local Arguments Z.mul : simpl never.
Local Arguments Z.add : simpl never.
Local Arguments Z.sub : simpl never.
Local Arguments Z.pow : simpl never.
Local Arguments Z.opp : simpl never.


(** The number of binary digits of a positive integer. *)
Lemma digits2_pos_bounds p :
  2 ^ (Zpos (digits2_pos p) - 1) <= Zpos p < 2 ^ Zpos (digits2_pos p).
Proof.
  induction p as [p IH|p IH|]; simpl digits2_pos.
  - rewrite Pos2Z.inj_succ.
    replace (Z.succ (Zpos (digits2_pos p)) - 1)
      with (Z.succ (Zpos (digits2_pos p) - 1)) by lia.
    rewrite !Z.pow_succ_r by lia. lia.
  - rewrite Pos2Z.inj_succ.
    replace (Z.succ (Zpos (digits2_pos p)) - 1)
      with (Z.succ (Zpos (digits2_pos p) - 1)) by lia.
    rewrite !Z.pow_succ_r by lia. lia.
  - change (2 ^ (1 - 1)) with 1. change (2 ^ 1) with 2. lia.
Qed.

Lemma digits2_unique p d :
  2 ^ (d - 1) <= Zpos p < 2 ^ d -> Zpos (digits2_pos p) = d.
Proof.
  intros [Hlo Hhi]. pose proof (digits2_pos_bounds p) as [Blo Bhi].
  assert (0 < d).
  { destruct (Z.ltb_spec 0 d); [assumption|].
    assert (2 ^ d <= 2 ^ 0) by (apply Z.pow_le_mono_r; lia).
    simpl in *. lia. }
  destruct (Z.lt_trichotomy (Zpos (digits2_pos p)) d) as [L|[E|G]]; [|exact E|].
  - assert (2 ^ Zpos (digits2_pos p) <= 2 ^ (d - 1))
      by (apply Z.pow_le_mono_r; lia).
    lia.
  - assert (2 ^ d <= 2 ^ (Zpos (digits2_pos p) - 1))
      by (apply Z.pow_le_mono_r; lia).
    lia.
Qed.

(** Shifting a mantissa to the right keeps the record located. *)
Lemma located_shr_1 mrs N T : located mrs N T -> located (shr_1 mrs) N (2 * T).
Proof.
  destruct mrs as [m r s]. unfold located. simpl.
  intros (HT & Hm & Hb & Hl).
  destruct m as [|p|p]; [| |lia].
  - simpl in *. destruct r, s; simpl; lia.
  - destruct p as [p|p|]; simpl shr_m; simpl shr_r; simpl shr_s.
    + rewrite Pos2Z.inj_xI in *. destruct r, s; simpl; lia.
    + rewrite Pos2Z.inj_xO in *. destruct r, s; simpl; lia.
    + destruct r, s; simpl; lia.
Qed.

Lemma pow2_xO p : 2 ^ Zpos p~0 = 2 ^ Zpos p * 2 ^ Zpos p.
Proof.
  replace (Zpos p~0) with (Zpos p + Zpos p) by lia.
  apply Z.pow_add_r; lia.
Qed.

Lemma pow2_xI p : 2 ^ Zpos p~1 = 2 * (2 ^ Zpos p * 2 ^ Zpos p).
Proof.
  replace (Zpos p~1) with (1 + (Zpos p + Zpos p)) by lia.
  rewrite Z.pow_add_r by lia. rewrite Z.pow_add_r by lia. reflexivity.
Qed.

Lemma located_iter p mrs N T :
  located mrs N T -> located (iter_pos shr_1 p mrs) N (T * 2 ^ Zpos p).
Proof.
  revert mrs T. induction p as [p IH|p IH|]; intros mrs T H; simpl iter_pos.
  - apply located_shr_1 in H. apply IH in H. apply IH in H.
    rewrite pow2_xI.
    replace (T * (2 * (2 ^ Zpos p * 2 ^ Zpos p)))
      with (2 * T * 2 ^ Zpos p * 2 ^ Zpos p) by ring. exact H.
  - apply IH in H. apply IH in H. rewrite pow2_xO.
    replace (T * (2 ^ Zpos p * 2 ^ Zpos p))
      with (T * 2 ^ Zpos p * 2 ^ Zpos p) by ring. exact H.
  - apply located_shr_1 in H.
    replace (T * 2 ^ 1) with (2 * T) by (change (2 ^ 1) with 2; ring).
    exact H.
Qed.

Lemma located_shr mrs e n N T :
  0 <= n -> located mrs N T ->
  located (fst (shr mrs e n)) N (T * 2 ^ n) /\ snd (shr mrs e n) = e + n.
Proof.
  intros Hn H. destruct n as [|p|p]; simpl.
  - rewrite Z.mul_1_r. split; [exact H|lia].
  - split; [apply located_iter; exact H|reflexivity].
  - lia.
Qed.

Lemma round_nearest_even_located mrs N T :
  located mrs N T ->
  let M := round_nearest_even (shr_m mrs) (loc_of_shr_record mrs) in
  shr_m mrs <= M <= shr_m mrs + 1 /\ 2 * Z.abs (M * T - N) <= T.
Proof.
  destruct mrs as [m r s]. unfold located. simpl.
  intros (HT & Hm & Hb & Hl).
  destruct r, s; simpl; try destruct (Z.even m); nia.
Qed.

Lemma fexp_normal e : -1074 <= e - 53 -> fexp prec emax e = e - 53.
Proof. intros H. unfold fexp, emin, prec, emax. lia. Qed.

Lemma Zdigits2_unique m d :
  2 ^ (d - 1) <= m < 2 ^ d -> 0 < d -> Zdigits2 m = d.
Proof.
  intros H Hd. destruct m as [|p|p].
  - assert (0 < 2 ^ (d - 1)) by (apply Z.pow_pos_nonneg; lia). lia.
  - simpl. apply digits2_unique. exact H.
  - assert (0 < 2 ^ (d - 1)) by (apply Z.pow_pos_nonneg; lia). lia.
Qed.

Lemma located_of_loc_exact m :
  0 <= m -> located (shr_record_of_loc m loc_Exact) m 1.
Proof. intros H. unfold located. simpl. lia. Qed.

(** The first shift of [binary_round_aux], for a mantissa of [d >= 53]
    digits. *)
Lemma shr_fexp_located m e l N T d :
  located (shr_record_of_loc m l) N T ->
  2 ^ (d - 1) <= m < 2 ^ d -> 53 <= d -> -1074 <= d + e - 53 ->
  exists mrs,
    shr_fexp prec emax m e l = (mrs, e + (d - 53)) /\
    located mrs N (T * 2 ^ (d - 53)) /\
    2 ^ 52 <= shr_m mrs < 2 ^ 53.
Proof.
  intros Hloc Hm Hd He. unfold shr_fexp.
  rewrite (Zdigits2_unique m d Hm) by lia.
  rewrite fexp_normal by lia.
  replace (d + e - 53 - e) with (d - 53) by lia.
  destruct (located_shr (shr_record_of_loc m l) e (d - 53) N T ltac:(lia) Hloc)
    as [Hl He'].
  destruct (shr (shr_record_of_loc m l) e (d - 53)) as [mrs e'] eqn:E.
  simpl in Hl, He'. subst e'. exists mrs.
  split; [reflexivity|]. split; [exact Hl|].
  destruct Hl as (HT & Hm0 & Hb & _).
  destruct Hloc as (HT0 & _ & Hb0 & _).
  assert (Em : shr_m (shr_record_of_loc m l) = m)
    by (destruct l as [|[]]; reflexivity).
  rewrite Em in Hb0.
  assert (P : 0 < 2 ^ (d - 53)) by (apply Z.pow_pos_nonneg; lia).
  assert (E1 : 2 ^ (d - 1) = 2 ^ 52 * 2 ^ (d - 53)).
  { rewrite <- Z.pow_add_r by lia. f_equal. lia. }
  assert (E2 : 2 ^ d = 2 ^ 53 * 2 ^ (d - 53)).
  { rewrite <- Z.pow_add_r by lia. f_equal. lia. }
  set (U := 2 ^ (d - 53)) in *. set (A := 2 ^ 52) in *. set (B := 2 ^ 53) in *.
  split; nia.
Qed.

Lemma shr_fexp_exact_53 m e :
  2 ^ 52 <= m < 2 ^ 53 -> -1074 <= e ->
  shr_fexp prec emax m e loc_Exact
    = ({| shr_m := m; shr_r := false; shr_s := false |}, e).
Proof.
  intros Hm He. unfold shr_fexp.
  rewrite (Zdigits2_unique m 53) by (simpl; lia).
  rewrite fexp_normal by lia.
  replace (53 + e - 53 - e) with 0 by lia. reflexivity.
Qed.

Lemma shr_fexp_exact_carry e :
  -1075 <= e ->
  shr_fexp prec emax (2 ^ 53) e loc_Exact
    = ({| shr_m := 2 ^ 52; shr_r := false; shr_s := false |}, e + 1).
Proof.
  intros He. unfold shr_fexp.
  change (Zdigits2 (2 ^ 53)) with 54.
  rewrite fexp_normal by lia.
  replace (54 + e - 53 - e) with 1 by lia. reflexivity.
Qed.

(** [binary_round_aux] on a mantissa of at least 53 digits, in the
    normal range: the result is a normal number within half a unit in
    the last place of [N / T]. *)
Lemma binary_round_aux_normal sx m e l N T d :
  located (shr_record_of_loc m l) N T ->
  2 ^ (d - 1) <= m < 2 ^ d -> 53 <= d ->
  -1074 <= d + e - 53 -> d + e - 52 <= 971 ->
  exists mz ez,
    binary_round_aux prec emax sx m e l = S754_finite sx mz ez /\
    2 ^ 52 <= Zpos mz < 2 ^ 53 /\
    d - 53 <= ez - e <= d - 52 /\
    2 * Z.abs (Zpos mz * 2 ^ (ez - e) * T - N) <= 2 ^ (ez - e) * T.
Proof.
  intros Hloc Hm Hd Hlo Hhi. unfold binary_round_aux.
  destruct (shr_fexp_located m e l N T d Hloc Hm Hd Hlo) as (mrs & E & Hl & Hb).
  rewrite E.
  destruct (round_nearest_even_located mrs N _ Hl) as [HM Herr].
  set (M := round_nearest_even (shr_m mrs) (loc_of_shr_record mrs)) in *.
  assert (HT : 0 < T) by (destruct Hloc; assumption).
  assert (P : 0 < 2 ^ (d - 53)) by (apply Z.pow_pos_nonneg; lia).
  destruct (Z.eq_dec M (2 ^ 53)) as [Ec|Nc].
  - rewrite Ec, shr_fexp_exact_carry by lia.
    cbn [shr_m]. change (2 ^ 52) with (Zpos (Z.to_pos (2 ^ 52))) at 1.
    cbv iota.
    replace (e + (d - 53) + 1 <=? emax - prec) with true
      by (symmetry; apply Z.leb_le; unfold emax, prec; lia).
    exists (Z.to_pos (2 ^ 52)), (e + (d - 53) + 1).
    split; [reflexivity|]. split; [simpl; lia|]. split; [lia|].
    replace (e + (d - 53) + 1 - e) with (1 + (d - 53)) by lia.
    rewrite Z.pow_add_r by lia. change (2 ^ 1) with 2.
    change (Zpos (Z.to_pos (2 ^ 52))) with (2 ^ 52).
    rewrite Ec in Herr. change (2 ^ 53) with (2 * 2 ^ 52) in Herr.
    set (U := 2 ^ (d - 53)) in *. set (A := 2 ^ 52) in *.
    assert (0 < T * U) by nia.
    replace (A * (2 * U) * T - N) with (2 * A * (T * U) - N) by ring.
    replace (2 * U * T) with (2 * (T * U)) by ring. lia.
  - rewrite shr_fexp_exact_53 by lia.
    cbn [shr_m].
    destruct M as [|pM|pM] eqn:EM; [lia| |lia].
    replace (e + (d - 53) <=? emax - prec) with true
      by (symmetry; apply Z.leb_le; unfold emax, prec; lia).
    exists pM, (e + (d - 53)).
    split; [reflexivity|]. split; [lia|]. split; [lia|].
    replace (e + (d - 53) - e) with (d - 53) by lia.
    replace (Zpos pM * 2 ^ (d - 53) * T)
      with (Zpos pM * (T * 2 ^ (d - 53))) by ring.
    replace (2 ^ (d - 53) * T) with (T * 2 ^ (d - 53)) by ring. exact Herr.
Qed.

(** An exactly representable mantissa goes through unchanged. *)
Lemma binary_round_aux_exact sx p e :
  2 ^ 52 <= Zpos p < 2 ^ 53 -> -1074 <= e <= 971 ->
  binary_round_aux prec emax sx (Zpos p) e loc_Exact = S754_finite sx p e.
Proof.
  intros Hp He. unfold binary_round_aux.
  rewrite shr_fexp_exact_53 by lia.
  cbn [shr_m loc_of_shr_record round_nearest_even].
  rewrite shr_fexp_exact_53 by lia. cbn [shr_m].
  replace (e <=? emax - prec) with true
    by (symmetry; apply Z.leb_le; unfold emax, prec; lia).
  reflexivity.
Qed.

Lemma located_new_location q d r :
  0 <= q -> 0 <= r < d ->
  located (shr_record_of_loc q (new_location d r)) (q * d + r) d.
Proof.
  intros Hq Hr. unfold new_location, new_location_even, new_location_odd.
  destruct (Z.even d) eqn:Ev.
  - destruct (Z.eqb_spec r 0) as [E|E].
    + unfold located. simpl. lia.
    + destruct (Z.compare_spec (2 * r) d); unfold located; simpl; lia.
  - destruct (Z.eqb_spec r 0) as [E|E].
    + unfold located. simpl. lia.
    + assert (Z.odd d = true) by (rewrite <- Z.negb_even, Ev; reflexivity).
      assert (Hodd : exists c, d = 2 * c + 1) by (apply Z.odd_spec; assumption).
      destruct Hodd as [c Hc].
      destruct (Z.compare_spec (2 * r + 1) d); unfold located; simpl; lia.
Qed.

Lemma Zdigits2_bounds m :
  0 < m ->
  2 ^ (Zdigits2 m - 1) <= m < 2 ^ Zdigits2 m /\ 0 < Zdigits2 m.
Proof.
  intros H. destruct m as [|p|p]; try lia. simpl Zdigits2.
  split; [apply digits2_pos_bounds|lia].
Qed.

Lemma pow2_lt_inv a b : 2 ^ a < 2 ^ b -> 0 <= b -> a < b.
Proof.
  intros H Hb. destruct (Z.lt_ge_cases a b) as [L|G]; [exact L|].
  assert (2 ^ b <= 2 ^ a) by (apply Z.pow_le_mono_r; lia). lia.
Qed.

(** The quotient of two positive integers, correctly rounded. *)
Lemma SFdiv_exact_located a b :
  0 < a < 2 ^ 51 -> 0 < b < 2 ^ 53 ->
  exists mr k,
    SFdiv prec emax (exact a) (exact b) = S754_finite false mr (- k) /\
    2 ^ 52 <= Zpos mr < 2 ^ 53 /\
    1 <= k <= 105 /\
    2 * Z.abs (Zpos mr * b - a * 2 ^ k) <= b.
Proof.
  intros Ha Hb.
  destruct (Zdigits2_bounds a ltac:(lia)) as [Ba Pa].
  destruct (Zdigits2_bounds b ltac:(lia)) as [Bb Pb].
  assert (Da : Zdigits2 a <= 51).
  { assert (Zdigits2 a - 1 < 51) by (apply pow2_lt_inv; lia). lia. }
  assert (Db : Zdigits2 b <= 53).
  { assert (Zdigits2 b - 1 < 53) by (apply pow2_lt_inv; lia). lia. }
  destruct a as [|pa|pa]; try lia. destruct b as [|pb|pb]; try lia.
  unfold exact, SFdiv, SFdiv_core_binary.
  set (d1 := Zdigits2 (Zpos pa)) in *. set (d2 := Zdigits2 (Zpos pb)) in *.
  replace (d1 + 0 - (d2 + 0)) with (d1 - d2) by lia.
  rewrite fexp_normal by lia.
  replace (Z.min (d1 - d2 - 53) (0 - 0)) with (d1 - d2 - 53) by lia.
  replace (0 - 0 - (d1 - d2 - 53)) with (53 + d2 - d1) by lia.
  set (s := 53 + d2 - d1) in *.
  assert (Hs : 3 <= s) by (unfold s; lia).
  destruct s as [|ps|ps] eqn:Es; try lia. rewrite <- Es in *.
  rewrite Z.shiftl_mul_pow2 by lia.
  pose proof (Z_div_mod (Zpos pa * 2 ^ s) (Zpos pb) ltac:(lia)) as Hdm.
  destruct (Z.div_eucl (Zpos pa * 2 ^ s) (Zpos pb)) as [q r].
  destruct Hdm as [Eq Hr].
  assert (P2 : 2 ^ (d1 - 1) * 2 ^ s = 2 ^ 52 * 2 ^ d2).
  { rewrite <- !Z.pow_add_r by lia. f_equal. unfold s. lia. }
  assert (P3 : 2 ^ d1 * 2 ^ s = 2 ^ 54 * 2 ^ (d2 - 1)).
  { rewrite <- !Z.pow_add_r by lia. f_equal. unfold s. lia. }
  assert (Ps : 0 < 2 ^ s) by (apply Z.pow_pos_nonneg; lia).
  assert (Hq : 2 ^ 52 <= q < 2 ^ 54).
  { set (A := 2 ^ 52) in *. set (B := 2 ^ 54) in *.
    set (X := 2 ^ s) in *. set (Y := 2 ^ d2) in *. set (Z := 2 ^ (d2 - 1)) in *.
    set (L := 2 ^ (d1 - 1)) in *. set (H := 2 ^ d1) in *.
    split; nia. }
  assert (Hloc : located (shr_record_of_loc q (new_location (Zpos pb) r))
                   (Zpos pa * 2 ^ s) (Zpos pb)).
  { rewrite Eq. replace (Zpos pb * q + r) with (q * Zpos pb + r) by ring.
    apply located_new_location; lia. }
  assert (Hd : exists d, 2 ^ (d - 1) <= q < 2 ^ d /\ 53 <= d <= 54).
  { destruct (Z.lt_ge_cases q (2 ^ 53)).
    - exists 53. change (2 ^ (53 - 1)) with (2 ^ 52). lia.
    - exists 54. change (2 ^ (54 - 1)) with (2 ^ 53). lia. }
  destruct Hd as (d & Hqd & Hd).
  destruct (binary_round_aux_normal (xorb false false) q (d1 - d2 - 53)
              _ _ _ d Hloc Hqd)
    as (mz & ez & E & Hmz & Hez & Herr); try lia.
  exists mz, (- ez). rewrite Z.opp_involutive. split; [exact E|].
  split; [exact Hmz|]. split; [unfold s in *; lia|].
  set (t := ez - (d1 - d2 - 53)) in *.
  assert (Et : 2 ^ s = 2 ^ (- ez) * 2 ^ t).
  { rewrite <- Z.pow_add_r by (unfold t, s in *; lia).
    f_equal. unfold t, s. lia. }
  assert (Pt : 0 < 2 ^ t) by (apply Z.pow_pos_nonneg; lia).
  rewrite Et in Herr.
  set (U := 2 ^ t) in *. set (K := 2 ^ (- ez)) in *.
  replace (Zpos mz * U * Zpos pb - Zpos pa * (K * U))
    with (U * (Zpos mz * Zpos pb - Zpos pa * K)) in Herr by ring.
  rewrite Z.abs_mul, (Z.abs_eq U) in Herr by lia.
  nia.
Qed.

Lemma iter_xO p d : Zpos (Pos.iter xO p d) = Zpos p * 2 ^ Zpos d.
Proof.
  induction d as [|d IH] using Pos.peano_ind.
  - simpl. change (2 ^ 1) with 2. lia.
  - rewrite Pos.iter_succ, Pos2Z.inj_xO, IH, Pos2Z.inj_succ, Z.pow_succ_r
      by lia.
    ring.
Qed.

(** A positive integer below [2^53] converts exactly. *)
Lemma binary_normalize_exact n :
  0 < n < 2 ^ 53 ->
  exists mn a,
    binary_normalize prec emax n 0 false = S754_finite false mn (- a) /\
    0 <= a <= 52 /\ Zpos mn = n * 2 ^ a /\ 2 ^ 52 <= Zpos mn < 2 ^ 53.
Proof.
  intros Hn. destruct n as [|p|p]; try lia.
  pose proof (digits2_pos_bounds p) as Bp.
  set (d := Zpos (digits2_pos p)) in *.
  assert (Dp : d <= 53).
  { assert (d - 1 < 53) by (apply pow2_lt_inv; lia). lia. }
  assert (Pd : 0 < d) by (unfold d; lia).
  unfold binary_normalize, binary_round, shl_align. fold d.
  rewrite fexp_normal by lia.
  assert (Ep : 2 ^ 52 = 2 ^ (d - 1) * 2 ^ (53 - d)).
  { rewrite <- Z.pow_add_r by lia. f_equal. lia. }
  assert (Eq : 2 ^ 53 = 2 ^ d * 2 ^ (53 - d)).
  { rewrite <- Z.pow_add_r by lia. f_equal. lia. }
  assert (Pu : 0 < 2 ^ (53 - d)) by (apply Z.pow_pos_nonneg; lia).
  destruct (d + 0 - 53 - 0) as [|k|k] eqn:Ek; try lia.
  - assert (d = 53) by lia.
    exists p, 0. replace (d + 0 - 53) with (- 0) by lia.
    rewrite binary_round_aux_exact.
    + split; [reflexivity|]. change (2 ^ 0) with 1.
      replace (53 - d) with 0 in * by lia. change (2 ^ 0) with 1 in *. lia.
    + replace (53 - d) with 0 in * by lia. change (2 ^ 0) with 1 in *. lia.
    + lia.
  - assert (Hk : Zpos k = 53 - d) by lia.
    exists (Pos.iter xO p k), (53 - d).
    replace (d + 0 - 53) with (- (53 - d)) by lia.
    assert (Em : Zpos (Pos.iter xO p k) = Zpos p * 2 ^ (53 - d)).
    { rewrite iter_xO, Hk. reflexivity. }
    rewrite binary_round_aux_exact.
    + split; [reflexivity|]. split; [lia|]. split; [exact Em|].
      rewrite Em. set (U := 2 ^ (53 - d)) in *. nia.
    + rewrite Em. set (U := 2 ^ (53 - d)) in *. nia.
    + lia.
Qed.

(** The product of two normal numbers, correctly rounded. *)
Lemma SFmul_located mx ex my ey :
  2 ^ 52 <= Zpos mx < 2 ^ 53 -> 2 ^ 52 <= Zpos my < 2 ^ 53 ->
  -1074 <= ex + ey + 52 -> ex + ey + 54 <= 971 ->
  exists mz ez,
    SFmul prec emax (S754_finite false mx ex) (S754_finite false my ey)
      = S754_finite false mz ez /\
    2 ^ 52 <= Zpos mz < 2 ^ 53 /\
    52 <= ez - (ex + ey) <= 54 /\
    2 * Z.abs (Zpos mz * 2 ^ (ez - (ex + ey)) - Zpos mx * Zpos my)
      <= 2 ^ (ez - (ex + ey)).
Proof.
  intros Hx Hy Hlo Hhi. unfold SFmul.
  rewrite Pos2Z.inj_mul.
  assert (Hp : 2 ^ 104 <= Zpos mx * Zpos my < 2 ^ 106).
  { change (2 ^ 104) with (2 ^ 52 * 2 ^ 52).
    change (2 ^ 106) with (2 ^ 53 * 2 ^ 53).
    set (A := 2 ^ 52) in *. set (B := 2 ^ 53) in *. nia. }
  assert (Hd : exists d, 2 ^ (d - 1) <= Zpos mx * Zpos my < 2 ^ d /\
                         105 <= d <= 106).
  { destruct (Z.lt_ge_cases (Zpos mx * Zpos my) (2 ^ 105)).
    - exists 105. change (2 ^ (105 - 1)) with (2 ^ 104). lia.
    - exists 106. change (2 ^ (106 - 1)) with (2 ^ 105). lia. }
  destruct Hd as (d & Hpd & Hd).
  destruct (binary_round_aux_normal (xorb false false) (Zpos mx * Zpos my)
              (ex + ey) loc_Exact (Zpos mx * Zpos my) 1 d)
    as (mz & ez & E & Hmz & Hez & Herr); try lia.
  { apply located_of_loc_exact. lia. }
  exists mz, ez. split; [exact E|]. split; [exact Hmz|]. split; [lia|].
  rewrite !Z.mul_1_r in Herr. exact Herr.
Qed.


(** The arithmetic behind the two roundings: the rounded product lies
    strictly within one unit of the exact quotient, scaled. *)
Lemma two_roundings H M W mr mp K Tt :
  0 < H -> 0 < M -> 0 < W -> H * M < 2 ^ 51 ->
  2 ^ 52 <= mr < 2 ^ 53 -> 2 ^ 52 <= mp < 2 ^ 53 ->
  0 < K -> 0 < Tt ->
  2 * Z.abs (mr * W - M * K) <= W ->
  2 * Z.abs (mp * Tt - H * mr) <= Tt ->
  H * W < K /\ 2 * (W * Tt) < K /\
  2 * Z.abs (mp * Tt * W - H * M * K) <= Tt * W + H * W.
Proof.
  intros HH HM HW HHM Hmr Hmp HK HT HA HC.
  change (2 ^ 51) with 2251799813685248 in *.
  change (2 ^ 52) with 4503599627370496 in *.
  change (2 ^ 53) with 9007199254740992 in *.
  assert (A1 : 2 * (mr * W) - W <= 2 * (M * K) <= 2 * (mr * W) + W) by lia.
  assert (C1 : 2 * (mp * Tt) - Tt <= 2 * (H * mr) <= 2 * (mp * Tt) + Tt) by lia.
  assert (S1 : H * W < K).
  { destruct (Z.lt_ge_cases (H * W) K) as [L|G]; [exact L|exfalso].
    assert (M * K <= M * (H * W)) by (apply Z.mul_le_mono_nonneg_l; lia).
    assert (M * (H * W) = (H * M) * W) by ring.
    assert ((H * M) * W <= 2251799813685247 * W)
      by (apply Z.mul_le_mono_nonneg_r; lia).
    assert (4503599627370496 * W <= mr * W)
      by (apply Z.mul_le_mono_nonneg_r; lia).
    lia. }
  assert (S2 : 2 * (W * Tt) < K).
  { assert (E1 : 9007199254740991 * Tt <= 2 * (H * mr)).
    { assert (4503599627370496 * Tt <= mp * Tt)
        by (apply Z.mul_le_mono_nonneg_r; lia). lia. }
    assert (E2 : 9007199254740991 * Tt * W <= 2 * (H * mr) * W)
      by (apply Z.mul_le_mono_nonneg_r; lia).
    assert (E3 : 2 * (H * mr) * W = H * (2 * (mr * W))) by ring.
    assert (E4 : H * (2 * (mr * W)) <= H * (2 * (M * K) + W))
      by (apply Z.mul_le_mono_nonneg_l; lia).
    assert (E5 : H * (2 * (M * K) + W) = 2 * ((H * M) * K) + H * W) by ring.
    assert (E6 : (H * M) * K <= 2251799813685247 * K)
      by (apply Z.mul_le_mono_nonneg_r; lia).
    assert (E7 : 9007199254740991 * Tt * W = 9007199254740991 * (W * Tt))
      by ring.
    lia. }
  split; [exact S1|]. split; [exact S2|].
  replace (mp * Tt * W - H * M * K)
    with (W * (mp * Tt - H * mr) + H * (mr * W - M * K)) by ring.
  assert (Z.abs (W * (mp * Tt - H * mr)) = W * Z.abs (mp * Tt - H * mr))
    by (rewrite Z.abs_mul, (Z.abs_eq W); lia).
  assert (Z.abs (H * (mr * W - M * K)) = H * Z.abs (mr * W - M * K))
    by (rewrite Z.abs_mul, (Z.abs_eq H); lia).
  pose proof (Z.abs_triangle (W * (mp * Tt - H * mr)) (H * (mr * W - M * K))).
  assert (W * (2 * Z.abs (mp * Tt - H * mr)) <= W * Tt)
    by (apply Z.mul_le_mono_nonneg_l; lia).
  assert (H * (2 * Z.abs (mr * W - M * K)) <= H * W)
    by (apply Z.mul_le_mono_nonneg_l; lia).
  lia.
Qed.

(** From the scaled estimate to the floor of the quotient. *)
Lemma floor_of_estimate H M W mp J :
  0 < W -> 0 < J -> 0 <= H * M ->
  Z.abs (mp * W - H * M * J) < J ->
  let h := mp / J in
  (H * M) / W - 1 <= h <= (H * M) / W /\
  ((H * M) mod W <> 0 -> h = (H * M) / W).
Proof.
  intros HW HJ HP Hest h.
  pose proof (Z.div_mod mp J ltac:(lia)) as Dm.
  pose proof (Z.mod_pos_bound mp J ltac:(lia)) as Bm.
  fold h in Dm.
  pose proof (Z.div_mod (H * M) W ltac:(lia)) as Dq.
  pose proof (Z.mod_pos_bound (H * M) W ltac:(lia)) as Bq.
  set (Q := (H * M) / W) in *. set (R := (H * M) mod W) in *.
  set (P := H * M) in *.
  assert (U1 : h * W <= P).
  { assert (h * J * W <= mp * W) by (apply Z.mul_le_mono_nonneg_r; lia).
    assert (h * J * W = (h * W) * J) by ring.
    assert ((h * W) * J < (P + 1) * J) by lia.
    assert (h * W < P + 1) by (apply Z.mul_lt_mono_pos_r with J; lia). lia. }
  assert (L1 : P <= (h + 1) * W).
  { assert (mp * W < (h + 1) * J * W).
    { apply Z.mul_lt_mono_pos_r; lia. }
    assert ((h + 1) * J * W = ((h + 1) * W) * J) by ring.
    assert ((P - 1) * J < ((h + 1) * W) * J) by lia.
    assert (P - 1 < (h + 1) * W)
      by (apply Z.mul_lt_mono_pos_r with J; lia).
    lia. }
  assert (U2 : h <= Q) by nia.
  assert (L2 : Q - 1 <= h) by nia.
  split; [lia|]. intros HR. assert (Q <= h) by nia. lia.
Qed.

(** [int(H * (M / W))] against the exact quotient: the floor, or one
    less when the quotient is an integer. *)
Lemma new_height_floor H M W :
  0 < H -> 0 < M -> 0 < W < 2 ^ 53 -> H * M < 2 ^ 51 ->
  exists h,
    new_height H M W = Ok h /\
    (H * M) / W - 1 <= h <= (H * M) / W /\
    ((H * M) mod W <> 0 -> h = (H * M) / W).
Proof.
  intros HH HM HW HHM.
  assert (M51 : M < 2 ^ 51).
  { assert (1 * M <= H * M) by (apply Z.mul_le_mono_nonneg_r; lia). lia. }
  assert (H51 : H < 2 ^ 51).
  { assert (H * 1 <= H * M) by (apply Z.mul_le_mono_nonneg_l; lia). lia. }
  unfold new_height, truediv.
  replace (W =? 0) with false by (symmetry; apply Z.eqb_neq; lia).
  destruct (SFdiv_exact_located M W ltac:(lia) HW)
    as (mr & k & Ediv & Hmr & Hk & HA).
  rewrite Ediv.
  unfold mul_int, of_int.
  destruct (binary_normalize_exact H ltac:(lia))
    as (mH & a & EH & Ha & EmH & HmH).
  rewrite EH.
  destruct (SFmul_located mH (- a) mr (- k) HmH Hmr ltac:(lia) ltac:(lia))
    as (mp & ep & Emul & Hmp & Hep & HC).
  rewrite Emul. unfold to_int, cond_Zopp.
  set (t := ep + k).
  assert (Ht : 0 <= t) by (unfold t; lia).
  assert (Ett : 2 ^ (ep - (- a + - k)) = 2 ^ a * 2 ^ t).
  { rewrite <- Z.pow_add_r by lia. f_equal. unfold t. lia. }
  assert (Pa : 0 < 2 ^ a) by (apply Z.pow_pos_nonneg; lia).
  assert (Pt : 0 < 2 ^ t) by (apply Z.pow_pos_nonneg; lia).
  assert (Pk : 0 < 2 ^ k) by (apply Z.pow_pos_nonneg; lia).
  assert (HC' : 2 * Z.abs (Zpos mp * 2 ^ t - H * Zpos mr) <= 2 ^ t).
  { rewrite Ett, EmH in HC.
    replace (Zpos mp * (2 ^ a * 2 ^ t) - H * 2 ^ a * Zpos mr)
      with (2 ^ a * (Zpos mp * 2 ^ t - H * Zpos mr)) in HC by ring.
    rewrite Z.abs_mul, (Z.abs_eq (2 ^ a)) in HC by lia.
    set (A := 2 ^ a) in *. set (T := 2 ^ t) in *.
    set (X := Z.abs (Zpos mp * T - H * Zpos mr)) in *.
    replace (A * T) with (A * T * 1) in HC by ring.
    replace (2 * (A * X)) with (A * (2 * X)) in HC by ring.
    replace (A * T * 1) with (A * T) in HC by ring.
    apply Z.mul_le_mono_pos_l with A; [lia|exact HC]. }
  destruct (two_roundings H M W (Zpos mr) (Zpos mp) (2 ^ k) (2 ^ t)
              HH HM ltac:(lia) HHM Hmr Hmp Pk Pt HA HC')
    as (S1 & S2 & S3).
  assert (Htk : t < k).
  { apply pow2_lt_inv; [|lia].
    assert (1 * 2 ^ t <= W * 2 ^ t) by (apply Z.mul_le_mono_nonneg_r; lia).
    lia. }
  assert (Ej : 2 ^ k = 2 ^ (- ep) * 2 ^ t).
  { rewrite <- Z.pow_add_r by (unfold t in *; lia). f_equal. unfold t. lia. }
  assert (Pj : 0 < 2 ^ (- ep)) by (apply Z.pow_pos_nonneg; unfold t in *; lia).
  assert (Hest : Z.abs (Zpos mp * W - H * M * 2 ^ (- ep)) < 2 ^ (- ep)).
  { rewrite Ej in S1, S2, S3.
    replace (Zpos mp * 2 ^ t * W - H * M * (2 ^ (- ep) * 2 ^ t))
      with (2 ^ t * (Zpos mp * W - H * M * 2 ^ (- ep))) in S3 by ring.
    rewrite Z.abs_mul, (Z.abs_eq (2 ^ t)) in S3 by lia.
    set (T := 2 ^ t) in *. set (J := 2 ^ (- ep)) in *.
    set (X := Z.abs (Zpos mp * W - H * M * J)) in *.
    assert (W * T < J * T) by lia.
    assert (W < J) by (apply Z.mul_lt_mono_pos_r with T; lia).
    assert (T * W + H * W < T * W + J * T) by lia.
    assert (T * W < T * J) by (apply Z.mul_lt_mono_pos_l; lia).
    assert (T * X < T * J) by lia.
    apply Z.mul_lt_mono_pos_l with T; lia. }
  destruct ep as [|pe|pe]; [unfold t in *; lia|unfold t in *; lia|].
  exists (Z.shiftr (Zpos mp) (Zpos pe)). split; [reflexivity|].
  rewrite Z.shiftr_div_pow2 by lia.
  change (- Zneg pe) with (Zpos pe) in *.
  apply (floor_of_estimate H M W (Zpos mp) (2 ^ Zpos pe)); lia.
Qed.

(** The two roundings of [int(H * (M / W))], side by side: [mr / 2^k]
    is the rounded ratio, [mp / 2^(k - t)] the rounded product, and the
    height is the integer part of the latter. *)
Lemma new_height_rounded H M W :
  0 < H -> 0 < M -> 0 < W < 2 ^ 53 -> H * M < 2 ^ 51 ->
  exists mr mp k t,
    2 ^ 52 <= mr < 2 ^ 53 /\ 2 ^ 52 <= mp < 2 ^ 53 /\ 0 <= t < k /\
    2 * Z.abs (mr * W - M * 2 ^ k) <= W /\
    2 * Z.abs (mp * 2 ^ t - H * mr) <= 2 ^ t /\
    new_height H M W = Ok (mp / 2 ^ (k - t)).
Proof.
  intros HH HM HW HHM.
  assert (M51 : M < 2 ^ 51).
  { assert (1 * M <= H * M) by (apply Z.mul_le_mono_nonneg_r; lia). lia. }
  assert (H51 : H < 2 ^ 51).
  { assert (H * 1 <= H * M) by (apply Z.mul_le_mono_nonneg_l; lia). lia. }
  unfold new_height, truediv.
  replace (W =? 0) with false by (symmetry; apply Z.eqb_neq; lia).
  destruct (SFdiv_exact_located M W ltac:(lia) HW)
    as (mr & k & Ediv & Hmr & Hk & HA).
  rewrite Ediv.
  unfold mul_int, of_int.
  destruct (binary_normalize_exact H ltac:(lia))
    as (mH & a & EH & Ha & EmH & HmH).
  rewrite EH.
  destruct (SFmul_located mH (- a) mr (- k) HmH Hmr ltac:(lia) ltac:(lia))
    as (mp & ep & Emul & Hmp & Hep & HC).
  rewrite Emul. unfold to_int, cond_Zopp.
  set (t := ep + k).
  assert (Ht : 0 <= t) by (unfold t; lia).
  assert (Ett : 2 ^ (ep - (- a + - k)) = 2 ^ a * 2 ^ t).
  { rewrite <- Z.pow_add_r by lia. f_equal. unfold t. lia. }
  assert (Pa : 0 < 2 ^ a) by (apply Z.pow_pos_nonneg; lia).
  assert (Pt : 0 < 2 ^ t) by (apply Z.pow_pos_nonneg; lia).
  assert (Pk : 0 < 2 ^ k) by (apply Z.pow_pos_nonneg; lia).
  assert (HC' : 2 * Z.abs (Zpos mp * 2 ^ t - H * Zpos mr) <= 2 ^ t).
  { rewrite Ett, EmH in HC.
    replace (Zpos mp * (2 ^ a * 2 ^ t) - H * 2 ^ a * Zpos mr)
      with (2 ^ a * (Zpos mp * 2 ^ t - H * Zpos mr)) in HC by ring.
    rewrite Z.abs_mul, (Z.abs_eq (2 ^ a)) in HC by lia.
    replace (2 * (2 ^ a * Z.abs (Zpos mp * 2 ^ t - H * Zpos mr)))
      with (2 ^ a * (2 * Z.abs (Zpos mp * 2 ^ t - H * Zpos mr))) in HC by ring.
    apply Z.mul_le_mono_pos_l with (2 ^ a); [lia|exact HC]. }
  destruct (two_roundings H M W (Zpos mr) (Zpos mp) (2 ^ k) (2 ^ t)
              HH HM ltac:(lia) HHM Hmr Hmp Pk Pt HA HC')
    as (S1 & S2 & S3).
  assert (Htk : t < k).
  { apply pow2_lt_inv; [|lia].
    assert (1 * 2 ^ t <= W * 2 ^ t) by (apply Z.mul_le_mono_nonneg_r; lia).
    lia. }
  exists (Zpos mr), (Zpos mp), k, t.
  split; [exact Hmr|]. split; [exact Hmp|]. split; [lia|].
  split; [exact HA|]. split; [exact HC'|].
  destruct ep as [|pe|pe]; [unfold t in *; lia|unfold t in *; lia|].
  rewrite Z.shiftr_div_pow2 by lia.
  replace (k - t) with (Zpos pe) by (unfold t; lia). reflexivity.
Qed.

(** A ratio that binary64 holds exactly: [M / W = c / 2^n] with [c]
    below [2^52].  Then the rounded ratio is the ratio. *)
Lemma exact_ratio M W c n mr k :
  0 < W -> 0 <= n -> 0 < c < 2 ^ 52 -> 0 <= k ->
  M * 2 ^ n = c * W ->
  2 ^ 52 <= mr ->
  2 * Z.abs (mr * W - M * 2 ^ k) <= W ->
  mr * W = M * 2 ^ k.
Proof.
  intros HW Hn Hc Hk Hdy Hmr HA.
  assert (Pn : 0 < 2 ^ n) by (apply Z.pow_pos_nonneg; lia).
  assert (Pk : 0 < 2 ^ k) by (apply Z.pow_pos_nonneg; lia).
  set (D := mr * 2 ^ n - c * 2 ^ k).
  assert (EWD : W * D = 2 ^ n * (mr * W - M * 2 ^ k)).
  { unfold D.
    replace (2 ^ n * (mr * W - M * 2 ^ k))
      with (mr * W * 2 ^ n - (M * 2 ^ n) * 2 ^ k) by ring.
    rewrite Hdy. ring. }
  assert (HD : 2 * Z.abs D <= 2 ^ n).
  { assert (E1 : W * (2 * Z.abs D) = 2 ^ n * (2 * Z.abs (mr * W - M * 2 ^ k))).
    { replace (W * (2 * Z.abs D)) with (2 * (Z.abs W * Z.abs D))
        by (rewrite (Z.abs_eq W); lia || ring).
      rewrite <- Z.abs_mul, EWD, Z.abs_mul, (Z.abs_eq (2 ^ n)) by lia. ring. }
    assert (E2 : 2 ^ n * (2 * Z.abs (mr * W - M * 2 ^ k)) <= 2 ^ n * W)
      by (apply Z.mul_le_mono_nonneg_l; lia).
    apply Z.mul_le_mono_pos_l with W; [lia|].
    rewrite E1. replace (W * 2 ^ n) with (2 ^ n * W) by ring. exact E2. }
  assert (D0 : D = 0).
  { destruct (Z.le_gt_cases n k) as [Lnk|Gnk].
    - assert (Ek : 2 ^ k = 2 ^ n * 2 ^ (k - n)).
      { rewrite <- Z.pow_add_r by lia. f_equal. lia. }
      assert (ED : D = 2 ^ n * (mr - c * 2 ^ (k - n))).
      { unfold D. rewrite Ek. ring. }
      rewrite ED in HD. rewrite Z.abs_mul, (Z.abs_eq (2 ^ n)) in HD by lia.
      assert (Z.abs (mr - c * 2 ^ (k - n)) = 0) by nia.
      rewrite ED. replace (mr - c * 2 ^ (k - n)) with 0 by lia. ring.
    - exfalso.
      assert (En : 2 ^ n = 2 ^ k * 2 ^ (n - k)).
      { rewrite <- Z.pow_add_r by lia. f_equal. lia. }
      assert (E2 : 2 ^ (n - k) = 2 * 2 ^ (n - k - 1)).
      { rewrite <- Z.pow_succ_r by lia. f_equal. lia. }
      assert (P1 : 0 < 2 ^ (n - k - 1)) by (apply Z.pow_pos_nonneg; lia).
      assert (ED : D = 2 ^ k * (mr * 2 ^ (n - k) - c)).
      { unfold D. rewrite En. ring. }
      rewrite ED, En in HD.
      rewrite Z.abs_mul, (Z.abs_eq (2 ^ k)) in HD by lia.
      assert (HD' : 2 * Z.abs (mr * 2 ^ (n - k) - c) <= 2 ^ (n - k)).
      { apply Z.mul_le_mono_pos_l with (2 ^ k); [lia|].
        replace (2 ^ k * (2 * Z.abs (mr * 2 ^ (n - k) - c)))
          with (2 * (2 ^ k * Z.abs (mr * 2 ^ (n - k) - c))) by ring.
        exact HD. }
      rewrite E2 in HD'.
      assert (2 ^ 52 * (2 * 2 ^ (n - k - 1)) <= mr * (2 * 2 ^ (n - k - 1)))
        by (apply Z.mul_le_mono_nonneg_r; lia).
      change (2 ^ 52) with 4503599627370496 in *. lia. }
  assert (W * D = 0) by (rewrite D0; ring).
  rewrite EWD in *. nia.
Qed.

(** X10.  When [max_width / width] is a ratio that binary64 holds
    exactly, [c / 2^n] with [c] below [2^52] (the width divides
    [max_width], or it is [max_width] times a power of two, as in
    halving), the scaled height is the floor of the exact quotient
    [height * max_width / width], also when the quotient is an
    integer. *)
Lemma new_height_exact H M W c n :
  0 < H -> 0 < M -> 0 < W < 2 ^ 53 -> H * M < 2 ^ 51 ->
  0 <= n -> 0 < c < 2 ^ 52 -> M * 2 ^ n = c * W ->
  new_height H M W = Ok ((H * M) / W).
Proof.
  intros HH HM HW HHM Hn Hc Hdy.
  destruct (new_height_floor H M W HH HM HW HHM) as (h & Eh & Hb & _).
  destruct (new_height_rounded H M W HH HM HW HHM)
    as (mr & mp & k & t & Hmr & Hmp & Htk & HA & HC & Eh').
  rewrite Eh' in Eh. injection Eh as Eh.
  rewrite Eh'. f_equal.
  assert (ER : mr * W = M * 2 ^ k)
    by (apply (exact_ratio M W c n mr k); lia).
  set (Q := (H * M) / W) in *.
  assert (Pt : 0 < 2 ^ t) by (apply Z.pow_pos_nonneg; lia).
  assert (Pj : 0 < 2 ^ (k - t)) by (apply Z.pow_pos_nonneg; lia).
  assert (Ek : 2 ^ k = 2 ^ (k - t) * 2 ^ t).
  { rewrite <- Z.pow_add_r by lia. f_equal. lia. }
  assert (HQ : Q * W <= H * M).
  { pose proof (Z.mul_div_le (H * M) W ltac:(lia)). unfold Q. lia. }
  destruct (Z.lt_ge_cases (mp / 2 ^ (k - t)) Q) as [Lt|Ge]; [exfalso|lia].
  assert (L1 : mp < Q * 2 ^ (k - t)).
  { destruct (Z.lt_ge_cases mp (Q * 2 ^ (k - t))) as [L|G]; [exact L|].
    assert (Q <= mp / 2 ^ (k - t)) by (apply Z.div_le_lower_bound; lia).
    lia. }
  assert (L2 : mp * 2 ^ t <= Q * 2 ^ k - 2 ^ t).
  { rewrite Ek.
    assert ((mp + 1) * 2 ^ t <= Q * 2 ^ (k - t) * 2 ^ t)
      by (apply Z.mul_le_mono_nonneg_r; lia).
    lia. }
  assert (L3 : Q * 2 ^ k <= H * mr).
  { apply Z.mul_le_mono_pos_r with W; [lia|].
    replace (H * mr * W) with (H * (mr * W)) by ring. rewrite ER.
    replace (H * (M * 2 ^ k)) with (H * M * 2 ^ k) by ring.
    replace (Q * 2 ^ k * W) with (Q * W * 2 ^ k) by ring.
    apply Z.mul_le_mono_nonneg_r; lia. }
  lia.
Qed.

End Rounding.

(** ** The normalizer *)

Ltac unfold_monad :=
  unfold bind, ret, lift, try_except, print, send, close, connect in *.

(** Printing leaves the socket and the wire alone. *)
Lemma logs_frame lines s :
  socket (fold_left (fun t l => log l t) lines s) = socket s /\
  connects (fold_left (fun t l => log l t) lines s) = connects s /\
  wire (fold_left (fun t l => log l t) lines s) = wire s /\
  stdout (fold_left (fun t l => log l t) lines s) = stdout s ++ lines.
Proof.
  revert s. induction lines as [|l lines IH]; intros s; simpl.
  - rewrite app_nil_r. auto.
  - destruct (IH (log l s)) as (H1 & H2 & H3 & H4).
    rewrite H1, H2, H3, H4. simpl. rewrite <- app_assoc. auto.
Qed.

(** [int(800 * (576 / 1152))] and [int(2 * (4 / 3))], by evaluation:
    the second product is 2.6666666666666665 and [int] drops the
    fraction. *)
Lemma new_height_800 : new_height 800 576 1152 = Ok 400.
Proof. vm_compute. reflexivity. Qed.


(** [int(49 * (1 / 49))]: the quotient is the integer 1, the product is
    0.9999999999999999, and the height is one less than the quotient. *)
Example new_height_49 : new_height 49 1 49 = Ok 0.
Proof. vm_compute. reflexivity. Qed.

(** [int(2 * (10**400 / 3))]: the quotient is beyond the range of
    binary64 and the division raises. *)
Example new_height_overflow :
  new_height 2 (10 ^ 400) 3
    = Raise (OverflowError "integer division result too large for a float").
Proof. vm_compute. reflexivity. Qed.

Section Normalizer.

Variable W : World.

(** The outcome of [normalize] does not depend on the state it runs in,
    and it only prints. *)
Lemma normalize_run img max_width s :
  exists lines,
    normalize W img max_width s =
      (normalized W img max_width, fold_left (fun t l => log l t) lines s).
Proof.
  unfold normalized, normalize, as_rgb. unfold_monad.
  destruct (negb (mode img =? "RGB")%string);
    [destruct (image_convert W img "RGB") as [rgb|e]|]; simpl.
  2: { exists []. reflexivity. }
  all: match goal with
       | |- context [negb (width ?i =? ?mw)] =>
           destruct (negb (width i =? mw));
           [destruct (new_height (height i) mw (width i)) as [h|e];
            [destruct (image_resize W i (mw, h)) as [out|e]|]|]
       end; simpl;
    try (exists [];  reflexivity);
    try (eexists [_]; reflexivity);
    try (eexists [_; _]; reflexivity).
Qed.

Lemma normalized_eq img max_width :
  normalized W img max_width =
    match as_rgb W img with
    | Raise e => Raise e
    | Ok rgb =>
        if width rgb =? max_width then Ok rgb
        else match new_height (height rgb) max_width (width rgb) with
             | Raise e => Raise e
             | Ok h => image_resize W rgb (max_width, h)
             end
    end.
Proof.
  unfold normalized, normalize, as_rgb. unfold_monad.
  destruct (negb (mode img =? "RGB")%string);
    [destruct (image_convert W img "RGB") as [rgb|e]|]; simpl; trivial.
  all: match goal with
       | |- context [negb (width ?i =? ?mw)] =>
           destruct (width i =? mw); simpl; trivial;
           destruct (new_height (height i) mw (width i)) as [h|e];
           simpl; trivial;
           destruct (image_resize W i (mw, h)) as [out|e];
           simpl; trivial
       end.
Qed.

Lemma as_rgb_of_rgb img : mode img = "RGB" -> as_rgb W img = Ok img.
Proof.
  intros H. unfold as_rgb. rewrite H. reflexivity.
Qed.

Hypothesis contract : pil_contract W.

Lemma as_rgb_spec img rgb :
  as_rgb W img = Ok rgb ->
  mode rgb = "RGB" /\ width rgb = width img /\ height rgb = height img.
Proof.
  intros H. unfold as_rgb in H.
  destruct (mode img =? "RGB")%string eqn:E; simpl in H.
  - inversion H; subst. apply String.eqb_eq in E. auto.
  - apply (convert_spec W contract) in H. exact H.
Qed.

(** What [normalize] hands back when the width has to change. *)
Lemma normalized_scaled img max_width out :
  width img <> max_width ->
  normalized W img max_width = Ok out ->
  width out = max_width /\
  new_height (height img) max_width (width img) = Ok (height out).
Proof.
  intros Hne Hn. rewrite normalized_eq in Hn.
  destruct (as_rgb W img) as [rgb|e] eqn:Hrgb; [|discriminate].
  destruct (as_rgb_spec img rgb Hrgb) as (_ & Hw & Hh).
  rewrite Hw, Hh in Hn. apply Z.eqb_neq in Hne. rewrite Hne in Hn.
  destruct (new_height (height img) max_width (width img)) as [h|e];
    [|discriminate].
  destruct (resize_spec W contract _ _ _ _ Hn) as (? & ? & _). subst. auto.
Qed.


(** C2 (as amended).  A 1152x800 image and [max_width = 576]: the ratio
    is exactly one half, the resampler is asked for 576x400, and its
    answer, a 576x400 bitmap, is what [normalize] produces. *)
Theorem normalize_1152x800 img rgb out :
  width img = 1152 -> height img = 800 ->
  as_rgb W img = Ok rgb ->
  image_resize W rgb (576, 400) = Ok out ->
  normalized W img 576 = Ok out /\ width out = 576 /\ height out = 400.
Proof.
  intros Hw Hh Hrgb Hres.
  destruct (as_rgb_spec img rgb Hrgb) as (_ & Hw' & Hh').
  rewrite normalized_eq, Hrgb, Hw', Hh', Hw, Hh.
  change (1152 =? 576) with false. cbv iota.
  rewrite new_height_800, Hres. split; [reflexivity|].
  destruct (resize_spec W contract _ _ _ _ Hres) as (? & ? & _). auto.
Qed.

(** C5 (as amended).  [normalize] has no check of its own on the
    dimensions.  When the conversion to RGB answers: a bitmap of width
    zero makes the division fail with [ZeroDivisionError] unless
    [max_width] is zero too; a bitmap whose width is already
    [max_width] is handed back as it is, empty or not; for any other
    bitmap the height [int(height * (max_width / width))] is computed
    first: when that computation raises, [normalize] raises the same
    error, and otherwise the bitmap goes to the resampler with the
    computed size and the resampler's answer is the answer of
    [normalize]. *)
Theorem normalize_degenerate img max_width rgb :
  as_rgb W img = Ok rgb ->
  (width img = 0 -> max_width <> 0 ->
   normalized W img max_width
     = Raise (ZeroDivisionError "division by zero")) /\
  (width img = max_width -> normalized W img max_width = Ok rgb) /\
  (width img <> max_width ->
   normalized W img max_width =
     match new_height (height img) max_width (width img) with
     | Raise e => Raise e
     | Ok h => image_resize W rgb (max_width, h)
     end).
Proof.
  intros Hrgb.
  destruct (as_rgb_spec img rgb Hrgb) as (_ & Hw & Hh).
  rewrite normalized_eq, Hrgb, Hw, Hh.
  split; [|split].
  - intros H0 Hmw. rewrite H0.
    assert (E : (0 =? max_width) = false) by (apply Z.eqb_neq; lia).
    rewrite E. reflexivity.
  - intros Heq. rewrite Heq, Z.eqb_refl. reflexivity.
  - intros Hne. apply Z.eqb_neq in Hne. rewrite Hne. reflexivity.
Qed.

(** C8.  [normalize] is idempotent: run a second time on its own
    result, with the same [max_width], it hands that result back; and
    on a bitmap whose width is already [max_width] the dimensions stay
    as they are. *)
Theorem normalize_idempotent img max_width s :
  fst ((out <- normalize W img max_width ;; normalize W out max_width) s)
    = fst (normalize W img max_width s) /\
  (width img = max_width ->
   forall out, fst (normalize W img max_width s) = Ok out ->
     width out = width img /\ height out = height img).
Proof.
  destruct (normalize_run img max_width s) as (lines & Hrun).
  assert (Hfix : forall out, normalized W img max_width = Ok out ->
                   normalized W out max_width = Ok out).
  { intros out Hn. rewrite normalized_eq in Hn.
    destruct (as_rgb W img) as [rgb|e] eqn:Hrgb; [|discriminate].
    destruct (as_rgb_spec img rgb Hrgb) as (Hm & _ & _).
    assert (Hout : mode out = "RGB" /\ width out = max_width).
    { destruct (width rgb =? max_width) eqn:E.
      - inversion Hn; subst. apply Z.eqb_eq in E. auto.
      - destruct (new_height (height rgb) max_width (width rgb)) as [h|e];
          [|discriminate].
        destruct (resize_spec W contract _ _ _ _ Hn) as (? & _ & ?).
        split; congruence. }
    destruct Hout as [Hmo Hwo].
    rewrite normalized_eq, (as_rgb_of_rgb out Hmo), Hwo, Z.eqb_refl.
    reflexivity. }
  split.
  - unfold bind at 1. rewrite Hrun.
    destruct (normalized W img max_width) as [out|e] eqn:Hn; [|reflexivity].
    match goal with
    | |- fst (normalize W out max_width ?s1) = _ =>
        destruct (normalize_run out max_width s1) as (lines' & Hrun')
    end.
    rewrite Hrun'. simpl. apply Hfix. reflexivity.
  - intros Heq out Hout. rewrite Hrun in Hout. simpl in Hout.
    rewrite normalized_eq in Hout.
    destruct (as_rgb W img) as [rgb|e] eqn:Hrgb; [|discriminate].
    destruct (as_rgb_spec img rgb Hrgb) as (_ & Hw & Hh).
    rewrite Hw, Heq, Z.eqb_refl in Hout. inversion Hout; subst. auto.
Qed.

End Normalizer.

(** The concrete world honours the contract. *)
Lemma sample_contract files online profiles jam :
  pil_contract (Sample.world files online profiles jam).
Proof.
  split; simpl.
  - intros img m out H. inversion H; subst; simpl. auto.
  - intros img w h out H. unfold Sample.resize in H.
    destruct ((w <? 1) || (h <? 1)); [discriminate|].
    inversion H; subst; simpl. auto.
Qed.



Lemma normalize_1152x800_witness :
  exists out,
    normalized (Sample.world [] true [] false) (Sample.white 1152 800) 576
      = Ok out /\ width out = 576 /\ height out = 400.
Proof.
  eexists.
  apply (normalize_1152x800 (Sample.world [] true [] false)
           (sample_contract _ _ _ _)
           (Sample.white 1152 800) (Sample.white 1152 800)).
  - reflexivity.
  - reflexivity.
  - reflexivity.
  - reflexivity.
Defined.

(** C2 as stated fails: the 1152x800 image does not come out 556 rows
    high, whatever its contents and whatever the resampler. *)
Lemma normalize_1152x800_not_556 :
  ~ (forall W img,
       pil_contract W -> width img = 1152 -> height img = 800 ->
       exists out, normalized W img 576 = Ok out /\
                   width out = 576 /\ height out = 556).
Proof.
  intros claim.
  pose (W := Sample.world [] true [] false).
  pose (img := Sample.white 1152 800).
  destruct (claim W img (sample_contract _ _ _ _) eq_refl eq_refl)
    as (out & Hn & _ & Hh).
  apply (normalized_scaled W (sample_contract _ _ _ _) img 576 out) in Hn.
  - destruct Hn as [_ Hn]. change (height img) with 800 in Hn.
    change (width img) with 1152 in Hn.
    rewrite new_height_800, Hh in Hn. discriminate.
  - discriminate.
Qed.

(** C5 as stated fails: a 576x0 bitmap passes [normalize] untouched
    when [max_width] is 576. *)
Lemma normalize_accepts_empty_bitmap :
  ~ (forall W img max_width,
       pil_contract W ->
       width img <= 0 \/ height img <= 0 ->
       exists e, normalized W img max_width = Raise e).
Proof.
  intros claim.
  destruct (claim (Sample.world [] true [] false) (Sample.white 576 0) 576
              (sample_contract _ _ _ _)) as (e & He).
  - right. simpl. lia.
  - vm_compute in He. discriminate.
Qed.

Lemma normalize_degenerate_witness :
  (normalized (Sample.world [] true [] false) (Sample.white 0 5) 576
     = Raise (ZeroDivisionError "division by zero")) /\
  (normalized (Sample.world [] true [] false) (Sample.white 576 0) 576
     = Ok (Sample.white 576 0)) /\
  (normalized (Sample.world [] true [] false) (Sample.white 3 0) 576
     = Raise (ValueError "height and width must be > 0")).
Proof.
  split; [|split].
  - apply (proj1 (normalize_degenerate (Sample.world [] true [] false)
                    (sample_contract _ _ _ _)
                    (Sample.white 0 5) 576 (Sample.white 0 5) eq_refl));
      [reflexivity | discriminate].
  - apply (proj1 (proj2 (normalize_degenerate
                           (Sample.world [] true [] false)
                           (sample_contract _ _ _ _)
                           (Sample.white 576 0) 576 (Sample.white 576 0)
                           eq_refl))).
    reflexivity.
  - etransitivity.
    + apply (proj2 (proj2 (normalize_degenerate
                             (Sample.world [] true [] false)
                             (sample_contract _ _ _ _)
                             (Sample.white 3 0) 576 (Sample.white 3 0)
                             eq_refl))).
      discriminate.
    + reflexivity.
Defined.

Lemma normalize_idempotent_witness :
  fst ((out <- normalize (Sample.world [] true [] false)
                 (Sample.white 3 2) 4 ;;
        normalize (Sample.world [] true [] false) out 4) initial)
    = fst (normalize (Sample.world [] true [] false)
             (Sample.white 3 2) 4 initial).
Proof.
  apply (normalize_idempotent (Sample.world [] true [] false)
           (sample_contract _ _ _ _) (Sample.white 3 2) 4 initial).
Defined.

(** ** The session *)

Local Arguments String.append : simpl never.
Local Arguments log : simpl never.
Local Arguments attempt : simpl never.
Local Arguments set_socket : simpl never.
Local Arguments wrote : simpl never.

Lemma stdout_log l s : stdout (log l s) = stdout s ++ [l].
Proof. reflexivity. Qed.
Lemma stdout_attempt p s : stdout (attempt p s) = stdout s.
Proof. reflexivity. Qed.
Lemma stdout_set_socket k s : stdout (set_socket k s) = stdout s.
Proof. reflexivity. Qed.
Lemma stdout_wrote w s : stdout (wrote w s) = stdout s.
Proof. reflexivity. Qed.
Lemma stdout_logs lines s :
  stdout (fold_left (fun t l => log l t) lines s) = stdout s ++ lines.
Proof. apply logs_frame. Qed.

Lemma wire_log l s : wire (log l s) = wire s.
Proof. reflexivity. Qed.
Lemma wire_attempt p s : wire (attempt p s) = wire s.
Proof. reflexivity. Qed.
Lemma wire_set_socket k s : wire (set_socket k s) = wire s.
Proof. reflexivity. Qed.
Lemma wire_wrote w s : wire (wrote w s) = wire s ++ [w].
Proof. reflexivity. Qed.
Lemma wire_logs lines s :
  wire (fold_left (fun t l => log l t) lines s) = wire s.
Proof. apply logs_frame. Qed.

Lemma connects_log l s : connects (log l s) = connects s.
Proof. reflexivity. Qed.
Lemma connects_attempt p s : connects (attempt p s) = connects s ++ [p].
Proof. reflexivity. Qed.
Lemma connects_set_socket k s : connects (set_socket k s) = connects s.
Proof. reflexivity. Qed.
Lemma connects_wrote w s : connects (wrote w s) = connects s.
Proof. reflexivity. Qed.
Lemma connects_logs lines s :
  connects (fold_left (fun t l => log l t) lines s) = connects s.
Proof. apply logs_frame. Qed.

Lemma socket_log l s : socket (log l s) = socket s.
Proof. reflexivity. Qed.
Lemma socket_attempt p s : socket (attempt p s) = socket s.
Proof. reflexivity. Qed.
Lemma socket_set_socket k s : socket (set_socket k s) = k.
Proof. reflexivity. Qed.
Lemma socket_wrote w s : socket (wrote w s) = socket s.
Proof. reflexivity. Qed.
Lemma socket_logs lines s :
  socket (fold_left (fun t l => log l t) lines s) = socket s.
Proof. apply logs_frame. Qed.

Create Rewrite HintDb state_db.
#[local] Hint Rewrite stdout_log stdout_attempt stdout_set_socket stdout_wrote
  stdout_logs wire_log wire_attempt wire_set_socket wire_wrote wire_logs
  connects_log connects_attempt connects_set_socket connects_wrote
  connects_logs socket_log socket_attempt socket_set_socket socket_wrote
  socket_logs : state_db.

(** Read a field of a state built by the script. *)
Ltac read_state := autorewrite with state_db; rewrite <- ?app_assoc; simpl.

(** Case analysis on the answer of a collaborator, or on the class of
    a caught exception. *)
Ltac case_call c := destruct c; simpl in *.

Ltac case_handlers :=
  repeat match goal with
         | H : context [is_ConnectionError ?e] |- _ =>
             destruct (is_ConnectionError e); simpl in H
         | |- context [is_ConnectionError ?e] =>
             destruct (is_ConnectionError e); simpl
         end.

Ltac case_device W i o p :=
  case_call (network_new W i o (Some p));
  [case_call (network_new W i o None)|];
  repeat match goal with
         | H : context [device_image W ?img] |- _ =>
             case_call (device_image W img)
         | |- context [device_image W ?img] => case_call (device_image W img)
         end;
  repeat match goal with
         | H : context [device_ln W ?n] |- _ => case_call (device_ln W n)
         | |- context [device_ln W ?n] => case_call (device_ln W n)
         end;
  repeat match goal with
         | H : context [device_cut W] |- _ => case_call (device_cut W)
         | |- context [device_cut W] => case_call (device_cut W)
         end;
  repeat match goal with
         | H : context [device_close W] |- _ => case_call (device_close W)
         | |- context [device_close W] => case_call (device_close W)
         end;
  case_handlers.

Ltac use_normalize_run :=
  match goal with
  | |- context [normalize ?W ?i ?mw ?s] =>
      let lines := fresh "lines" in
      let Hrun := fresh "Hrun" in
      destruct (normalize_run W i mw s) as (lines & Hrun);
      rewrite Hrun; clear Hrun
  | H : context [normalize ?W ?i ?mw ?s] |- _ =>
      let lines := fresh "lines" in
      let Hrun := fresh "Hrun" in
      destruct (normalize_run W i mw s) as (lines & Hrun);
      rewrite Hrun in H; clear Hrun
  end.

Lemma existsb_skip {A} (f : A -> bool) a l :
  existsb f l = true -> existsb f (a :: l) = true.
Proof. intros H. simpl. rewrite H. apply orb_true_r. Qed.

Lemma existsb_app_r {A} (f : A -> bool) pre l :
  existsb f l = true -> existsb f (pre ++ l) = true.
Proof. intros H. rewrite existsb_app, H. apply orb_true_r. Qed.

Ltac find_error :=
  first [ reflexivity
        | apply existsb_skip; find_error
        | apply existsb_app_r; find_error ].

Ltac show_report :=
  unfold reports_failure; eexists; split;
  [ read_state; reflexivity | find_error ].

(** C9.  When the script reports success, what went to the printer
    during the run is the image (the one [normalize] produced from the
    opened file), then one line feed, then the cut, in this order and
    nothing else. *)
Theorem session_writes_in_order W image_path printer_ip printer_port
    profile max_width s s' :
  print_image_to_network_printer W image_path printer_ip printer_port
    profile max_width s = (Ok true, s') ->
  exists img0 img,
    image_open W image_path = Ok img0 /\
    normalized W img0 max_width = Ok img /\
    wire s' = wire s ++ [WImage img; WLineFeed 1; WCut].
Proof.
  unfold print_image_to_network_printer, session, handlers.
  unfold_monad. intros H.
  destruct (path_exists W image_path); simpl in H.
  2: { inversion H. }
  destruct (image_open W image_path) as [img0|e0]; simpl in H.
  2: { destruct (is_ConnectionError e0); inversion H. }
  use_normalize_run.
  destruct (normalized W img0 max_width) as [img|e1] eqn:Hnorm; simpl in H.
  2: { destruct (is_ConnectionError e1); inversion H. }
  exists img0, img. split; [reflexivity|]. split; [exact Hnorm|].
  clear Hnorm.
  case_device W printer_ip printer_port profile;
    inversion H; subst; read_state; reflexivity.
Qed.

(** C10.  The function never lets an exception out: whatever the
    collaborators do, it returns a boolean, [True] exactly when the
    [try] block ran to its end, and [False], after printing a failure
    report, in every other case. *)
Theorem never_raises W image_path printer_ip printer_port profile
    max_width s :
  exists b s',
    print_image_to_network_printer W image_path printer_ip printer_port
      profile max_width s = (Ok b, s') /\
    (b = true <->
     fst (session W image_path printer_ip printer_port profile max_width s)
       = Ok true) /\
    (b = false -> reports_failure s s').
Proof.
  unfold print_image_to_network_printer, session, handlers.
  unfold_monad.
  destruct (path_exists W image_path); simpl.
  2: { do 2 eexists. split; [reflexivity|]. split.
       - split; discriminate.
       - intros _. show_report. }
  destruct (image_open W image_path) as [img0|e0]; simpl.
  2: { destruct (is_ConnectionError e0); do 2 eexists;
       (split; [reflexivity|]); (split; [split; discriminate|]);
       intros _; show_report. }
  use_normalize_run.
  destruct (normalized W img0 max_width) as [img|e1]; simpl.
  2: { destruct (is_ConnectionError e1); do 2 eexists;
       (split; [reflexivity|]); (split; [split; discriminate|]);
       intros _; show_report. }
  case_device W printer_ip printer_port profile;
    do 2 eexists; (split; [reflexivity|]);
    (split; [split; (discriminate || reflexivity)|]);
    (discriminate || (intros _; show_report)).
Qed.

(** C6.  With a missing image file, or one that [Image.open] cannot
    read, the program prints a failure report, exits with status 1,
    and makes no connection attempt (the socket is left as it was). *)
Theorem missing_image_fails_offline W args s :
  path_exists W (arg_image_path args) = false \/
  (exists e, image_open W (arg_image_path args) = Raise e) ->
  exists s',
    main W args s = (Ok 1, s') /\
    reports_failure s s' /\
    connects s' = connects s /\
    socket s' = socket s.
Proof.
  intros Hbad.
  unfold main, print_image_to_network_printer, session, handlers.
  unfold_monad. simpl.
  destruct (path_exists W (arg_image_path args)) eqn:Hex; simpl.
  - destruct Hbad as [Hbad|(e & He)]; [discriminate|].
    rewrite He. simpl.
    destruct (is_ConnectionError e); eexists;
      (split; [reflexivity|]); (split; [show_report|]);
      split; reflexivity.
  - eexists. split; [reflexivity|]. split; [show_report|].
    split; reflexivity.
Qed.

(** C7.  When the constructor refuses the named profile, the script
    prints a warning, connects again without a profile, sends the job,
    and the program exits with status 0 when everything else
    succeeds. *)
Theorem unknown_profile_falls_back W args s img0 img e :
  path_exists W (arg_image_path args) = true ->
  image_open W (arg_image_path args) = Ok img0 ->
  normalized W img0 (arg_width args) = Ok img ->
  network_new W (arg_printer_ip args) (arg_port args)
    (Some (arg_profile args)) = Some e ->
  network_new W (arg_printer_ip args) (arg_port args) None = None ->
  device_image W img = None ->
  device_ln W 1 = None ->
  device_cut W = None ->
  device_close W = None ->
  exists s',
    main W args s = (Ok 0, s') /\
    In ("Warning: Profile '" ++ arg_profile args
        ++ "' not found, using default profile")%string (stdout s') /\
    connects s' = connects s ++ [Some (arg_profile args); None] /\
    wire s' = wire s ++ [WImage img; WLineFeed 1; WCut] /\
    socket s' = SocketClosed.
Proof.
  intros Hex Hopen Hnorm Hprof Hconn Himg Hln Hcut Hclose.
  unfold main, print_image_to_network_printer, session, handlers.
  unfold_monad. simpl. rewrite Hex, Hopen. simpl.
  use_normalize_run. rewrite Hnorm. simpl.
  rewrite Hprof. simpl. rewrite Hconn. simpl.
  rewrite Himg. simpl. rewrite Hln. simpl. rewrite Hcut. simpl.
  rewrite Hclose. simpl.
  eexists. split; [reflexivity|].
  split; [|split; [|split]]; read_state; try reflexivity.
  apply in_or_app. right. do 8 right. apply in_or_app. right.
  simpl. auto.
Qed.

(** Whatever makes the function return [False], it does not close the
    socket: the socket is as it was before the call, or open. *)
Lemma failure_never_closes W image_path printer_ip printer_port profile
    max_width s s' :
  print_image_to_network_printer W image_path printer_ip printer_port
    profile max_width s = (Ok false, s') ->
  socket s' = socket s \/ socket s' = SocketOpen.
Proof.
  unfold print_image_to_network_printer, session, handlers.
  unfold_monad. intros H.
  destruct (path_exists W image_path); simpl in H.
  2: { inversion H; subst. left. reflexivity. }
  destruct (image_open W image_path) as [img0|e0]; simpl in H.
  2: { destruct (is_ConnectionError e0); inversion H; subst;
       left; reflexivity. }
  use_normalize_run.
  destruct (normalized W img0 max_width) as [img|e1]; simpl in H.
  2: { destruct (is_ConnectionError e1); inversion H; subst;
       left; read_state; reflexivity. }
  case_device W printer_ip printer_port profile;
    inversion H; subst; read_state; auto.
Qed.

Lemma session_writes_in_order_witness :
  exists img,
    wire (snd (print_image_to_network_printer
                 (Sample.world sample_files true ["TM-T20II"] false)
                 "logo.png" "192.168.1.100" 9100 "TM-T20II" 4 initial))
      = [WImage img; WLineFeed 1; WCut].
Proof.
  destruct (session_writes_in_order
              (Sample.world sample_files true ["TM-T20II"] false)
              "logo.png" "192.168.1.100" 9100 "TM-T20II" 4 initial
              (snd (print_image_to_network_printer
                      (Sample.world sample_files true ["TM-T20II"] false)
                      "logo.png" "192.168.1.100" 9100 "TM-T20II" 4 initial)))
    as (img0 & img & _ & _ & Hwire).
  - vm_compute. reflexivity.
  - exists img. exact Hwire.
Defined.

Lemma missing_image_fails_offline_witness :
  exists s',
    main (Sample.world sample_files true ["TM-T20II"] false)
      (default_args "192.168.1.100" "nothing.png") initial = (Ok 1, s') /\
    reports_failure initial s' /\
    connects s' = connects initial /\
    socket s' = socket initial.
Proof.
  apply (missing_image_fails_offline
           (Sample.world sample_files true ["TM-T20II"] false)
           (default_args "192.168.1.100" "nothing.png") initial).
  left. reflexivity.
Defined.

Lemma unknown_profile_falls_back_witness :
  exists s',
    main (Sample.world sample_files true ["TM-T20II"] false)
      {| arg_printer_ip := "192.168.1.100"; arg_image_path := "logo.png";
         arg_port := 9100; arg_profile := "TM-T88V"; arg_width := 3 |}
      initial = (Ok 0, s') /\
    In "Warning: Profile 'TM-T88V' not found, using default profile"
      (stdout s') /\
    connects s' = [Some "TM-T88V"; None] /\
    wire s' = [WImage (Sample.white 3 2); WLineFeed 1; WCut] /\
    socket s' = SocketClosed.
Proof.
  apply (unknown_profile_falls_back
           (Sample.world sample_files true ["TM-T20II"] false)
           {| arg_printer_ip := "192.168.1.100"; arg_image_path := "logo.png";
              arg_port := 9100; arg_profile := "TM-T88V"; arg_width := 3 |}
           initial (Sample.white 3 2) (Sample.white 3 2)
           (OtherException "KeyError" "TM-T88V"));
    reflexivity.
Defined.

(** C4, the release of the socket.  On the reported-success path the
    script closes the connection; when a write raises, the handlers
    print and return and the socket opened by [Network] is still open
    when the function returns [False]. *)
Theorem write_failure_leaves_socket_open :
  let jammed := Sample.world sample_files true ["TM-T20II"] true in
  let fine := Sample.world sample_files true ["TM-T20II"] false in
  let run W := print_image_to_network_printer W "logo.png" "192.168.1.100"
                 9100 "TM-T20II" 4 initial in
  fst (run fine) = Ok true /\ socket (snd (run fine)) = SocketClosed /\
  fst (run jammed) = Ok false /\ socket (snd (run jammed)) = SocketOpen.
Proof.
  vm_compute. repeat split; reflexivity.
Qed.

(** ** The raster encoder *)

Section RasterFacts.

Import RasterSpec.

Variable header : list Z.
Variable printed : pixel -> bool.

Lemma packed_row_width_ceil w :
  8 * (packed_row_width w - 1) < w <= 8 * packed_row_width w.
Proof.
  unfold packed_row_width.
  pose proof (Z.div_mod (w + 7) 8 ltac:(lia)).
  pose proof (Z.mod_pos_bound (w + 7) 8 ltac:(lia)). lia.
Qed.

Lemma length_packed_row bm y :
  List.length (packed_row printed bm y)
    = Z.to_nat (packed_row_width (width bm)).
Proof.
  unfold packed_row. rewrite length_map, length_seq. reflexivity.
Qed.

Lemma length_flat_rows {A B} (f : A -> list B) k rows :
  (forall r, List.length (f r) = k) ->
  List.length (flat_map f rows) = (List.length rows * k)%nat.
Proof.
  intros Hk. induction rows as [|r rows IH]; simpl.
  - reflexivity.
  - rewrite length_app, Hk, IH. reflexivity.
Qed.

Lemma length_raster bm :
  List.length (raster printed bm)
    = (Z.to_nat (height bm) * Z.to_nat (packed_row_width (width bm)))%nat.
Proof.
  unfold raster.
  rewrite (length_flat_rows _ (Z.to_nat (packed_row_width (width bm)))).
  - rewrite length_seq. reflexivity.
  - intros r. apply length_packed_row.
Qed.

(** C3.  For a bitmap of positive width [w] and height [h]: whenever the
    encoder produces a byte sequence, its length is the header length
    plus 4 plus [ceil(w/8) * h]; it does produce one when both counts
    fit in 16 bits; and the bytes depend on nothing but the bitmap's
    size and pixels, the same input giving the same bytes. *)
Theorem encode_length bm :
  0 < width bm -> 0 < height bm ->
  (forall bytes, encode header printed bm = inr bytes ->
     Z.of_nat (List.length bytes)
       = Z.of_nat (List.length header) + 4
         + packed_row_width (width bm) * height bm) /\
  (packed_row_width (width bm) <= 65535 -> height bm <= 65535 ->
   exists bytes, encode header printed bm = inr bytes) /\
  (forall bm', width bm' = width bm -> height bm' = height bm ->
     pixels bm' = pixels bm ->
     encode header printed bm' = encode header printed bm).
Proof.
  intros Hw Hh.
  pose proof (packed_row_width_ceil (width bm)) as Hceil.
  split; [|split].
  - intros bytes He. unfold encode in He.
    destruct ((width bm =? 0) || (height bm =? 0)); [discriminate|].
    destruct ((65535 <? packed_row_width (width bm)) || (65535 <? height bm));
      [discriminate|].
    inversion He; subst. rewrite length_app. cbn [List.length].
    rewrite length_raster. lia.
  - intros Hwb Hhb. unfold encode.
    replace (width bm =? 0) with false by (symmetry; apply Z.eqb_neq; lia).
    replace (height bm =? 0) with false by (symmetry; apply Z.eqb_neq; lia).
    replace (65535 <? packed_row_width (width bm)) with false
      by (symmetry; apply Z.ltb_ge; lia).
    replace (65535 <? height bm) with false
      by (symmetry; apply Z.ltb_ge; lia).
    simpl. eexists. reflexivity.
  - intros bm' Ew Eh Ep. unfold encode, raster, packed_row, packed_byte,
      bit_at, pixel_at. rewrite Ew, Eh, Ep. reflexivity.
Qed.

End RasterFacts.

(** The 10x2 bitmap, encoded: header, 2 bytes a row, 2 rows, and one
    set bit in each row. *)
Example encode_checker :
  RasterSpec.encode RasterSpec.gs_v_0 RasterSpec.dark RasterSpec.checker
    = inr [29; 118; 48; 0; 2; 0; 2; 0; 128; 0; 64; 0].
Proof. reflexivity. Qed.

Lemma encode_length_witness :
  (forall bytes,
     RasterSpec.encode RasterSpec.gs_v_0 RasterSpec.dark RasterSpec.checker
       = inr bytes ->
     Z.of_nat (List.length bytes) = 4 + 4 + 2 * 2) /\
  (exists bytes,
     RasterSpec.encode RasterSpec.gs_v_0 RasterSpec.dark RasterSpec.checker
       = inr bytes).
Proof.
  destruct (encode_length RasterSpec.gs_v_0 RasterSpec.dark
              RasterSpec.checker) as (Hlen & Hex & _).
  - reflexivity.
  - reflexivity.
  - split.
    + exact Hlen.
    + apply Hex; vm_compute; discriminate.
Defined.

(** * More about the script *)

(** ** Every run, case by case *)

Lemma handlers_run printer_ip printer_port e s :
  handlers printer_ip printer_port e s
    = (Ok false, reported printer_ip printer_port e s).
Proof.
  unfold reported, handlers. unfold_monad.
  destruct (is_ConnectionError e); reflexivity.
Qed.

Lemma stdout_reported i o e s :
  stdout (reported i o e s) = stdout s ++ report_lines i o e.
Proof.
  unfold reported, report_lines, handlers. unfold_monad.
  destruct (is_ConnectionError e); simpl; read_state; reflexivity.
Qed.

Lemma wire_reported i o e s : wire (reported i o e s) = wire s.
Proof.
  unfold reported, handlers. unfold_monad.
  destruct (is_ConnectionError e); reflexivity.
Qed.

Lemma connects_reported i o e s : connects (reported i o e s) = connects s.
Proof.
  unfold reported, handlers. unfold_monad.
  destruct (is_ConnectionError e); reflexivity.
Qed.

Lemma socket_reported i o e s : socket (reported i o e s) = socket s.
Proof.
  unfold reported, handlers. unfold_monad.
  destruct (is_ConnectionError e); reflexivity.
Qed.

#[local] Hint Rewrite stdout_reported wire_reported connects_reported
  socket_reported : state_db.

Local Arguments reported : simpl never.

(** The whole function, as a case analysis on the answers of the
    collaborators. *)
Lemma run_cases W image_path printer_ip printer_port profile max_width s :
  let run := print_image_to_network_printer W image_path printer_ip
               printer_port profile max_width s in
  let report := reported printer_ip printer_port in
  (path_exists W image_path = false /\
   run = (Ok false, log (msg_not_found image_path) s)) \/
  (path_exists W image_path = true /\
   ((exists e, image_open W image_path = Raise e /\
       run = (Ok false, report e (log (msg_opening image_path) s))) \/
    (exists img0 lines,
       image_open W image_path = Ok img0 /\
       let s1 := fold_left (fun t l => log l t) lines
                   (log (msg_opening image_path) s) in
       ((exists e, normalized W img0 max_width = Raise e /\
           run = (Ok false, report e s1)) \/
        (exists img,
           normalized W img0 max_width = Ok img /\
           let s2 := log (msg_connecting printer_ip printer_port profile)
                       s1 in
           ((exists e1 e2,
               network_new W printer_ip printer_port (Some profile)
                 = Some e1 /\
               network_new W printer_ip printer_port None = Some e2 /\
               run = (Ok false,
                      report e2
                        (attempt None
                           (log (msg_warning profile)
                              (attempt (Some profile) s2))))) \/
            (exists sc,
               connected_to W printer_ip printer_port profile s2 sc /\
               delivered W printer_ip printer_port img
                 (log "Printing image..." sc) run))))))).
Proof.
  cbv zeta.
  unfold print_image_to_network_printer, session. unfold_monad.
  destruct (path_exists W image_path) eqn:Hex; simpl.
  2: { left. split; reflexivity. }
  right. split; [reflexivity|].
  destruct (image_open W image_path) as [img0|e0] eqn:Hopen; simpl.
  2: { left. exists e0. split; [reflexivity|]. apply handlers_run. }
  right.
  destruct (normalize_run W img0 max_width
              (log ("Opening image: " ++ image_path) s)) as (lines & Hrun).
  rewrite Hrun. exists img0, lines. split; [reflexivity|].
  destruct (normalized W img0 max_width) as [img|e1] eqn:Hnorm; simpl.
  2: { left. exists e1. split; [reflexivity|]. apply handlers_run. }
  right. exists img. split; [reflexivity|].
  unfold connected_to, delivered.
  destruct (network_new W printer_ip printer_port (Some profile))
    as [e1|] eqn:Hc1; simpl.
  - destruct (network_new W printer_ip printer_port None)
      as [e2|] eqn:Hc2; simpl.
    + left. exists e1, e2. repeat split. apply handlers_run.
    + right. eexists. split.
      * right. exists e1. repeat split.
      * destruct (device_image W img) as [e|] eqn:Hi; simpl;
          [left; exists e; split; [reflexivity|apply handlers_run]|right].
        destruct (device_ln W 1) as [e|] eqn:Hl; simpl;
          [left; exists e; repeat split; apply handlers_run|right].
        destruct (device_cut W) as [e|] eqn:Hu; simpl;
          [left; exists e; repeat split; apply handlers_run|right].
        destruct (device_close W) as [e|] eqn:Hx; simpl;
          [left; exists e; repeat split; apply handlers_run|right].
        repeat split.
  - right. eexists. split.
    + left. split; reflexivity.
    + destruct (device_image W img) as [e|] eqn:Hi; simpl;
        [left; exists e; split; [reflexivity|apply handlers_run]|right].
      destruct (device_ln W 1) as [e|] eqn:Hl; simpl;
        [left; exists e; repeat split; apply handlers_run|right].
      destruct (device_cut W) as [e|] eqn:Hu; simpl;
        [left; exists e; repeat split; apply handlers_run|right].
      destruct (device_close W) as [e|] eqn:Hx; simpl;
        [left; exists e; repeat split; apply handlers_run|right].
      repeat split.
Qed.

(** Case analysis on a run, with the answers of the collaborators as
    hypotheses. *)
Ltac cases_of_run W p i o f m s :=
  let R := fresh "R" in
  pose proof (run_cases W p i o f m s) as R; cbv zeta in R;
  destruct R as
    [ [Hex Hrun]
    | [Hex [ (e & Hopen & Hrun)
           | (img0 & lines & Hopen &
              [ (e & Hnorm & Hrun)
              | (img & Hnorm &
                 [ (e1 & e2 & Hc1 & Hc2 & Hrun)
                 | (sc & [ [Hc1 Esc] | (e1 & Hc1 & Hc2 & Esc) ] &
                    [ (e & Hi & Hrun)
                    | [ (e & Hi & Hl & Hrun)
                      | [ (e & Hi & Hl & Hu & Hrun)
                        | [ (e & Hi & Hl & Hu & Hx & Hrun)
                          | (Hi & Hl & Hu & Hx & Hrun) ] ] ] ]) ]) ]) ] ] ];
  try subst sc; rewrite Hrun in *; clear Hrun; cbn [fst snd] in *.

Lemma not_reached_missing W p m img :
  path_exists W p = false -> ~ reaches_printer W p m img.
Proof. intros H [H' _]. congruence. Qed.

Lemma not_reached_unreadable W p m img e :
  image_open W p = Raise e -> ~ reaches_printer W p m img.
Proof. intros H (_ & img0 & H' & _). congruence. Qed.

Lemma not_reached_unscaled W p m img img0 e :
  image_open W p = Ok img0 -> normalized W img0 m = Raise e ->
  ~ reaches_printer W p m img.
Proof. intros H Hn (_ & img1 & H' & Hn'). congruence. Qed.

Lemma reached W p m img0 img :
  path_exists W p = true -> image_open W p = Ok img0 ->
  normalized W img0 m = Ok img -> reaches_printer W p m img.
Proof. intros H1 H2 H3. split; [exact H1|]. exists img0. auto. Qed.

Lemma reached_unique W p m img0 img img' :
  image_open W p = Ok img0 -> normalized W img0 m = Ok img ->
  reaches_printer W p m img' -> img' = img.
Proof. intros H Hn (_ & img1 & H' & Hn'). congruence. Qed.


Lemma last_app_cons {A} (l1 l2 : list A) a d :
  last (l1 ++ a :: l2) d = last (a :: l2) d.
Proof.
  induction l1 as [|b l1 IH]; [reflexivity|].
  simpl app. rewrite <- IH. simpl. destruct (l1 ++ a :: l2) eqn:E.
  - destruct l1; discriminate.
  - reflexivity.
Qed.

Lemma last_report_not_success i o e pre :
  last (pre ++ report_lines i o e) "" <> msg_success.
Proof.
  unfold report_lines. destruct (is_ConnectionError e);
    rewrite last_app_cons; lazy; discriminate.
Qed.

(** ** The connection *)

(** X1.  Whatever happens, the function calls [Network] at most twice:
    not at all exactly when the image could not be prepared; and when
    the image was prepared, once with the profile when that call
    answers, and a second time without a profile exactly when the
    first call raised. *)
Theorem connection_attempts W image_path printer_ip printer_port profile
    max_width s :
  let s' := snd (print_image_to_network_printer W image_path printer_ip
                   printer_port profile max_width s) in
  (connects s' = connects s /\
   forall bitmap, ~ reaches_printer W image_path max_width bitmap) \/
  (connects s' = connects s ++ [Some profile] /\
   (exists bitmap, reaches_printer W image_path max_width bitmap) /\
   network_new W printer_ip printer_port (Some profile) = None) \/
  (connects s' = connects s ++ [Some profile; None] /\
   (exists bitmap, reaches_printer W image_path max_width bitmap) /\
   network_new W printer_ip printer_port (Some profile) <> None).
Proof.
  cbv zeta.
  cases_of_run W image_path printer_ip printer_port profile max_width s.
  1: { left. split; [reflexivity|]. intros bitmap.
       apply not_reached_missing. exact Hex. }
  1: { left. split; [read_state; reflexivity|]. intros bitmap.
       apply (not_reached_unreadable _ _ _ _ e). exact Hopen. }
  1: { left. split; [read_state; reflexivity|]. intros bitmap.
       apply (not_reached_unscaled _ _ _ _ img0 e); assumption. }
  all: assert (Hr : exists bitmap,
                 reaches_printer W image_path max_width bitmap)
         by (exists img; eapply reached; eassumption).
  all: first
    [ right; left; split; [read_state; reflexivity|];
      split; [exact Hr|exact Hc1]
    | right; right; split; [read_state; reflexivity|];
      split; [exact Hr|congruence] ].
Qed.

(** Bring a concatenation of printed lines to a normal form. *)
Ltac flatten :=
  repeat (rewrite <- app_assoc || rewrite <- app_comm_cons); cbn [app].

(** X2.  With the printer unreachable, the failure of the first call
    of [Network] is reported as an unknown profile, whatever its cause;
    the script calls [Network] a second time without a profile, and
    when that call raises a [ConnectionError] the program prints the
    connection report and exits with status 1, having written nothing
    and with the socket as it was. *)
Theorem unreachable_printer_is_tried_twice W args s bitmap err1 err2 :
  reaches_printer W (arg_image_path args) (arg_width args) bitmap ->
  network_new W (arg_printer_ip args) (arg_port args)
    (Some (arg_profile args)) = Some err1 ->
  network_new W (arg_printer_ip args) (arg_port args) None = Some err2 ->
  is_ConnectionError err2 = true ->
  exists s' pre,
    main W args s = (Ok 1, s') /\
    stdout s' =
      stdout s ++ pre
      ++ [ msg_warning (arg_profile args);
           ("Error: Could not connect to printer at "
            ++ arg_printer_ip args ++ ":" ++ str_int (arg_port args))%string;
           "Make sure the printer is online and the IP address is correct" ]
    /\
    connects s' = connects s ++ [Some (arg_profile args); None] /\
    wire s' = wire s /\ socket s' = socket s.
Proof.
  intros Hreach H1 H2 Hcls.
  unfold main. unfold_monad. simpl.
  match goal with
  | |- context [print_image_to_network_printer W ?p ?i ?o ?f ?m ?s0] =>
      cases_of_run W p i o f m s0
  end;
    try (exfalso; first
           [ eapply not_reached_missing; eassumption
           | eapply not_reached_unreadable; eassumption
           | eapply not_reached_unscaled; eassumption
           | congruence ]).
  assert (e2 = err2) by congruence. subst e2.
  eexists.
  exists (banner args ++ msg_opening (arg_image_path args) :: lines
          ++ [msg_connecting (arg_printer_ip args) (arg_port args)
                (arg_profile args)]).
  split; [reflexivity|].
  split; [|split; [|split]]; autorewrite with state_db;
    unfold report_lines, banner; rewrite ?Hcls; flatten; reflexivity.
Qed.

(** ** What reaches the printer *)

(** X3.  Whatever happens, what the function writes to the printer is
    an initial part of the job: nothing, or the image that [normalize]
    produced, then the line feed, then the cut, in this order; and it
    writes only after one of the two calls of [Network] answered. *)
Theorem writes_are_a_prefix_of_the_job W image_path printer_ip
    printer_port profile max_width s :
  let s' := snd (print_image_to_network_printer W image_path printer_ip
                   printer_port profile max_width s) in
  exists sent,
    wire s' = wire s ++ sent /\
    (sent = [] \/
     exists bitmap n,
       reaches_printer W image_path max_width bitmap /\
       connection_up W printer_ip printer_port profile /\
       sent = firstn n [WImage bitmap; WLineFeed 1; WCut]).
Proof.
  cbv zeta.
  cases_of_run W image_path printer_ip printer_port profile max_width s.
  1-4: exists []; split; [autorewrite with state_db; flatten;
                          rewrite ?app_nil_r; reflexivity|left; reflexivity].
  all: assert (Hr : reaches_printer W image_path max_width img)
         by (eapply reached; eassumption);
       assert (Hup : connection_up W printer_ip printer_port profile)
         by (unfold connection_up; auto).
  all: match goal with
       | |- context [wrote WCut] =>
           exists [WImage img; WLineFeed 1; WCut]; split;
           [autorewrite with state_db; flatten; reflexivity|];
           right; exists img, 3%nat; auto
       | |- context [wrote (WLineFeed 1)] =>
           exists [WImage img; WLineFeed 1]; split;
           [autorewrite with state_db; flatten; reflexivity|];
           right; exists img, 2%nat; auto
       | |- context [wrote (WImage _)] =>
           exists [WImage img]; split;
           [autorewrite with state_db; flatten; reflexivity|];
           right; exists img, 1%nat; auto
       | |- _ =>
           exists []; split;
           [autorewrite with state_db; flatten; rewrite ?app_nil_r;
            reflexivity|left; reflexivity]
       end.
Qed.

(** X4.  Under the contract of the imaging library, every image the
    function sends to the printer is in RGB mode and exactly
    [max_width] pixels wide. *)
Theorem sent_image_is_normalized W image_path printer_ip printer_port
    profile max_width s bitmap :
  pil_contract W ->
  In (WImage bitmap)
    (wire (snd (print_image_to_network_printer W image_path printer_ip
                  printer_port profile max_width s))) ->
  In (WImage bitmap) (wire s) \/
  (mode bitmap = "RGB" /\ width bitmap = max_width).
Proof.
  intros C Hin.
  assert (Hpost : forall img0 out, normalized W img0 max_width = Ok out ->
                    mode out = "RGB" /\ width out = max_width).
  { intros img0 out Hn. rewrite normalized_eq in Hn.
    destruct (as_rgb W img0) as [rgb|e] eqn:Hrgb; [|discriminate].
    destruct (as_rgb_spec W C img0 rgb Hrgb) as (Hm & _ & _).
    destruct (width rgb =? max_width) eqn:E.
    - inversion Hn; subst. apply Z.eqb_eq in E. auto.
    - destruct (new_height (height rgb) max_width (width rgb)) as [h|e];
        [|discriminate].
      destruct (resize_spec W C _ _ _ _ Hn) as (? & _ & ?).
      split; congruence. }
  revert Hin.
  cases_of_run W image_path printer_ip printer_port profile max_width s;
    autorewrite with state_db; flatten; intros Hin;
    try (left; exact Hin);
    apply in_app_or in Hin; destruct Hin as [Hin|Hin]; try (left; exact Hin);
    right; simpl in Hin;
    repeat (destruct Hin as [Hin|Hin]; try discriminate; try contradiction);
    injection Hin as <-; eapply Hpost; eassumption.
Qed.

(** ** What the caller is told *)

(** X5.  The success message is the last line printed exactly when the
    function returns [True]. *)
Theorem success_message_iff_true W image_path printer_ip printer_port
    profile max_width s :
  let run := print_image_to_network_printer W image_path printer_ip
               printer_port profile max_width s in
  fst run = Ok true <->
  exists pre, stdout (snd run) = stdout s ++ pre ++ [msg_success].
Proof.
  cbv zeta.
  cases_of_run W image_path printer_ip printer_port profile max_width s.
  all: split; [intros Hres|intros (pre & Hout)].
  all: try discriminate.
  all: try (eexists; rewrite stdout_log, (app_assoc (stdout s)); f_equal;
            etransitivity;
            [autorewrite with state_db; flatten; reflexivity|reflexivity]).
  all: try reflexivity.
  all: exfalso; autorewrite with state_db in Hout;
       apply (f_equal (fun l => last l "")) in Hout;
       rewrite (app_assoc (stdout s) pre), last_last in Hout.
  1: { rewrite last_last in Hout. lazy in Hout. discriminate. }
  all: eapply last_report_not_success; exact Hout.
Qed.

(** X6.  The call closes the connection exactly when it returns
    [True]: if the socket was not closed before the call, it is closed
    at return if and only if the function returns [True]; no path that
    returns [False] closes it. *)
Theorem socket_closed_iff_true W image_path printer_ip printer_port
    profile max_width s :
  let run := print_image_to_network_printer W image_path printer_ip
               printer_port profile max_width s in
  socket s <> SocketClosed ->
  (socket (snd run) = SocketClosed <-> fst run = Ok true).
Proof.
  cbv zeta. intros Hs.
  cases_of_run W image_path printer_ip printer_port profile max_width s;
    autorewrite with state_db; split; intros H;
    try reflexivity; try discriminate; try contradiction.
Qed.


(** ** Failures before the connection *)

(** X8.  When the image file opens but [normalize] raises (the
    conversion, the division or the resampler), the function prints
    the report of that exception and returns [False] without calling
    [Network] and without touching the socket or the wire. *)
Theorem preparation_failure_stays_offline W image_path printer_ip
    printer_port profile max_width s opened err :
  path_exists W image_path = true ->
  image_open W image_path = Ok opened ->
  normalized W opened max_width = Raise err ->
  exists s' pre,
    print_image_to_network_printer W image_path printer_ip printer_port
      profile max_width s = (Ok false, s') /\
    stdout s' = stdout s ++ pre ++ report_lines printer_ip printer_port err /\
    connects s' = connects s /\ wire s' = wire s /\ socket s' = socket s.
Proof.
  intros Hpath Hop Hn.
  cases_of_run W image_path printer_ip printer_port profile max_width s;
    try congruence.
  assert (img0 = opened) by congruence. subst img0.
  assert (e = err) by congruence. subst e.
  eexists. exists (msg_opening image_path :: lines).
  split; [reflexivity|].
  repeat split; autorewrite with state_db; flatten; reflexivity.
Qed.

(** X9.  An image of width zero, with a nonzero [max_width], stops the
    function at the division: it prints "Error printing image:
    division by zero" as its last line and returns [False], without
    calling [Network]. *)
Theorem zero_width_image_is_reported W image_path printer_ip printer_port
    profile max_width s opened rgb :
  pil_contract W ->
  path_exists W image_path = true ->
  image_open W image_path = Ok opened ->
  as_rgb W opened = Ok rgb ->
  width opened = 0 -> max_width <> 0 ->
  exists s' pre,
    print_image_to_network_printer W image_path printer_ip printer_port
      profile max_width s = (Ok false, s') /\
    stdout s' = stdout s ++ pre
                ++ ["Error printing image: division by zero"] /\
    connects s' = connects s.
Proof.
  intros C Hpath Hop Hrgb Hw Hmw.
  assert (Hn : normalized W opened max_width
               = Raise (ZeroDivisionError "division by zero")).
  { destruct (as_rgb_spec W C opened rgb Hrgb) as (_ & Ew & _).
    rewrite normalized_eq, Hrgb, Ew, Hw.
    replace (0 =? max_width) with false by (symmetry; apply Z.eqb_neq; lia).
    reflexivity. }
  cases_of_run W image_path printer_ip printer_port profile max_width s;
    try congruence.
  assert (img0 = opened) by congruence. subst img0.
  assert (e = ZeroDivisionError "division by zero") by congruence. subst e.
  eexists. exists (msg_opening image_path :: lines).
  split; [reflexivity|].
  split; autorewrite with state_db; flatten; reflexivity.
Qed.

(** ** More about the scaled height *)

(** X11.  An image so wide that [height * max_width] is less than its
    width is scaled to no rows at all: [normalize] asks the resampler
    for [max_width] columns and 0 rows. *)
Theorem wide_image_gets_no_rows W img max_width rgb :
  pil_contract W ->
  0 < height img -> 0 < max_width ->
  height img * max_width < width img -> width img < 2 ^ 51 ->
  as_rgb W img = Ok rgb ->
  new_height (height img) max_width (width img) = Ok 0 /\
  normalized W img max_width = image_resize W rgb (max_width, 0).
Proof.
  intros C Hh Hm Hwide Hw Hrgb.
  assert (Hpos : 0 < height img * max_width) by (apply Z.mul_pos_pos; lia).
  change (2 ^ 51) with 2251799813685248 in Hw.
  destruct (Rounding.new_height_floor (height img) max_width (width img))
    as (h & Hnh & _ & Hfloor);
    try (change (2 ^ 53) with 9007199254740992);
    try (change (2 ^ 51) with 2251799813685248); try lia.
  rewrite Z.mod_small, Z.div_small in Hfloor by lia.
  rewrite Hfloor in Hnh by lia.
  split; [exact Hnh|].
  destruct (as_rgb_spec W C img rgb Hrgb) as (_ & Ew & Eh).
  rewrite normalized_eq, Hrgb, Ew, Eh, Hnh.
  assert (Hne : width img <> max_width).
  { assert (1 * max_width <= height img * max_width)
      by (apply Z.mul_le_mono_nonneg_r; lia).
    lia. }
  apply Z.eqb_neq in Hne. rewrite Hne. reflexivity.
Qed.

(** ** Concrete runs *)

Lemma unreachable_printer_is_tried_twice_witness :
  exists s' pre,
    main (Sample.world sample_files false ["TM-T20II"] false)
      {| arg_printer_ip := "192.168.1.100"; arg_image_path := "logo.png";
         arg_port := 9100; arg_profile := "TM-T20II"; arg_width := 3 |}
      initial = (Ok 1, s') /\
    stdout s' =
      stdout initial ++ pre
      ++ [ msg_warning "TM-T20II";
           "Error: Could not connect to printer at 192.168.1.100:9100";
           "Make sure the printer is online and the IP address is correct" ]
    /\
    connects s' = connects initial ++ [Some "TM-T20II"; None] /\
    wire s' = wire initial /\ socket s' = socket initial.
Proof.
  apply (unreachable_printer_is_tried_twice
           (Sample.world sample_files false ["TM-T20II"] false)
           {| arg_printer_ip := "192.168.1.100"; arg_image_path := "logo.png";
              arg_port := 9100; arg_profile := "TM-T20II"; arg_width := 3 |}
           initial (Sample.white 3 2)
           (ConnectionError "Connection refused")
           (ConnectionError "Connection refused")).
  - split; [reflexivity|]. exists (Sample.white 3 2).
    split; reflexivity.
  - reflexivity.
  - reflexivity.
  - reflexivity.
Defined.

Lemma sent_image_is_normalized_witness :
  In (WImage (Sample.white 3 2)) (wire initial) \/
  (mode (Sample.white 3 2) = "RGB" /\ width (Sample.white 3 2) = 3).
Proof.
  apply (sent_image_is_normalized
           (Sample.world sample_files true ["TM-T20II"] false)
           "logo.png" "192.168.1.100" 9100 "TM-T20II" 3 initial
           (Sample.white 3 2) (sample_contract _ _ _ _)).
  vm_compute. left. reflexivity.
Defined.

Lemma socket_closed_iff_true_witness :
  let run W := print_image_to_network_printer W "logo.png"
                 "192.168.1.100" 9100 "TM-T20II" 3 initial in
  socket (snd (run (Sample.world sample_files true ["TM-T20II"] false)))
    = SocketClosed /\
  socket (snd (run (Sample.world sample_files true ["TM-T20II"] true)))
    <> SocketClosed.
Proof.
  cbv zeta. split.
  - apply (socket_closed_iff_true
             (Sample.world sample_files true ["TM-T20II"] false)
             "logo.png" "192.168.1.100" 9100 "TM-T20II" 3 initial).
    + discriminate.
    + vm_compute. reflexivity.
  - intros Hclosed.
    apply (socket_closed_iff_true
             (Sample.world sample_files true ["TM-T20II"] true)
             "logo.png" "192.168.1.100" 9100 "TM-T20II" 3 initial) in Hclosed.
    + vm_compute in Hclosed. discriminate.
    + discriminate.
Defined.

Lemma preparation_failure_stays_offline_witness :
  exists s' pre,
    print_image_to_network_printer
      (Sample.world more_files true ["TM-T20II"] false)
      "wide.png" "192.168.1.100" 9100 "TM-T20II" 50 initial
      = (Ok false, s') /\
    stdout s' = stdout initial ++ pre
                ++ ["Error printing image: height and width must be > 0"] /\
    connects s' = connects initial /\ wire s' = wire initial /\
    socket s' = socket initial.
Proof.
  apply (preparation_failure_stays_offline
           (Sample.world more_files true ["TM-T20II"] false)
           "wide.png" "192.168.1.100" 9100 "TM-T20II" 50 initial
           (Sample.white 100 1)
           (ValueError "height and width must be > 0")).
  - reflexivity.
  - reflexivity.
  - vm_compute. reflexivity.
Defined.

Lemma zero_width_image_is_reported_witness :
  exists s' pre,
    print_image_to_network_printer
      (Sample.world more_files true ["TM-T20II"] false)
      "empty.png" "192.168.1.100" 9100 "TM-T20II" 576 initial
      = (Ok false, s') /\
    stdout s' = stdout initial ++ pre
                ++ ["Error printing image: division by zero"] /\
    connects s' = connects initial.
Proof.
  apply (zero_width_image_is_reported
           (Sample.world more_files true ["TM-T20II"] false)
           "empty.png" "192.168.1.100" 9100 "TM-T20II" 576 initial
           (Sample.white 0 5) (Sample.white 0 5) (sample_contract _ _ _ _)).
  - reflexivity.
  - reflexivity.
  - reflexivity.
  - reflexivity.
  - discriminate.
Defined.

Lemma new_height_exact_witness :
  new_height 800 576 1152 = Ok (800 * 576 / 1152).
Proof.
  apply (Rounding.new_height_exact 800 576 1152 1 1).
  - lia.
  - lia.
  - split; reflexivity.
  - reflexivity.
  - lia.
  - split; reflexivity.
  - reflexivity.
Defined.

Lemma wide_image_gets_no_rows_witness :
  new_height 1 50 100 = Ok 0 /\
  normalized (Sample.world [] true [] false) (Sample.white 100 1) 50
    = Sample.resize (Sample.white 100 1) (50, 0).
Proof.
  apply (wide_image_gets_no_rows (Sample.world [] true [] false)
           (Sample.white 100 1) 50 (Sample.white 100 1)
           (sample_contract _ _ _ _)).
  - reflexivity.
  - reflexivity.
  - reflexivity.
  - reflexivity.
  - reflexivity.
Defined.
